(** * Image_editor: the file and image batch pipeline

    A shallow embedding of [image_editor/core/file_manager.py] and of the
    batch entry points of [image_editor/core/image_processor.py], with the
    properties the specification states about them.

    The filesystem is an explicit value (a tree of directories and files)
    that every operation receives and returns; Python exceptions are the
    [Raise] branch of [result]; dictionaries are stdpp's [gmap]. *)

From stdpp Require Import gmap strings list pretty sorting.
From Stdlib Require Import ZArith Ascii Floats.

(** ** Exceptions *)

Inductive exn : Type :=
| FileNotFoundError
| FileExistsError
| IsADirectoryError
| NotADirectoryError
| PermissionError
| DirectoryNotEmpty
| ShutilError
| EOFError
| OverflowError
| ValueError (msg : string)
| NameError (name : string).

Inductive result (A : Type) : Type :=
| Ok (a : A)
| Raise (e : exn).
Arguments Ok {A} a.
Arguments Raise {A} e.

Global Instance result_ret : MRet result := fun _ a => Ok a.
Global Instance result_bind : MBind result := fun _ _ k r =>
  match r with
  | Ok a => k a
  | Raise e => Raise e
  end.

(** ** Strings: the [str] and [os.path] functions the code calls *)

Module Str.

Definition to_list : string → list ascii := String.list_ascii_of_string.
Definition of_list : list ascii → string := String.string_of_list_ascii.

(** [str.lower()] on the ASCII range. *)
Definition lower_ascii (c : ascii) : ascii :=
  let n := nat_of_ascii c in
  if (65 <=? n)%nat && (n <=? 90)%nat then ascii_of_nat (n + 32) else c.

Definition lower (s : string) : string := of_list (lower_ascii <$> to_list s).

(** [s.endswith(suffix)] *)
Definition endswith (s suffix : string) : bool :=
  let l := to_list s in
  let x := to_list suffix in
  bool_decide (drop (length l - length x) l = x).

(** [s.lstrip('.')] *)
Fixpoint lstrip_dot_list (l : list ascii) : list ascii :=
  match l with
  | c :: l' => if decide (c = "."%char) then lstrip_dot_list l' else l
  | [] => []
  end.
Definition lstrip_dot (s : string) : string := of_list (lstrip_dot_list (to_list s)).

(** [p.rfind('.')] *)
Fixpoint rfind_dot (l : list ascii) : option nat :=
  match l with
  | [] => None
  | c :: l' =>
      match rfind_dot l' with
      | Some i => Some (S i)
      | None => if decide (c = "."%char) then Some 0%nat else None
      end
  end.

(** [os.path.splitext] applied to a single path component: the extension
    starts at the last dot, unless only dots come before it. *)
Definition splitext (p : string) : string * string :=
  let l := to_list p in
  match rfind_dot l with
  | Some i =>
      if existsb (fun c => negb (bool_decide (c = "."%char))) (take i l)
      then (of_list (take i l), of_list (drop i l))
      else (p, "")
  | None => (p, "")
  end.

(** The f-string [f"{base_name}({counter}){extension}"]. *)
Definition numbered (base_name : string) (counter : nat) (extension : string) : string :=
  base_name +:+ "(" +:+ pretty counter +:+ ")" +:+ extension.

End Str.

(** ** The filesystem *)

(** A file holds its bytes, or [None] when opening or reading it raises. *)
#[warnings="-register-all"] Inductive node : Type :=
| File (data : option (list Byte.byte))
| Dir (entries : list (string * node)).

Definition path := list string.

Module FS.

Definition is_dir (n : node) : bool :=
  match n with Dir _ => true | File _ => false end.

Fixpoint assoc (name : string) (es : list (string * node)) : option node :=
  match es with
  | [] => None
  | (k, c) :: es' => if decide (k = name) then Some c else assoc name es'
  end.

Definition remove_entry (name : string) (es : list (string * node)) : list (string * node) :=
  filter (fun e => e.1 ≠ name) es.

Fixpoint set_entry (name : string) (c : node) (es : list (string * node)) : list (string * node) :=
  match es with
  | [] => []
  | (k, c0) :: es' => if decide (k = name) then (k, c) :: es' else (k, c0) :: set_entry name c es'
  end.

(** Path resolution from the root of the tree. *)
Fixpoint lookup_path (n : node) (p : path) : option node :=
  match p with
  | [] => Some n
  | d :: p' =>
      match n with
      | Dir es => match assoc d es with Some c => lookup_path c p' | None => None end
      | File _ => None
      end
  end.

(** Rewrite the entries of the directory at [p]. *)
Fixpoint update (p : path) (f : list (string * node) → list (string * node)) (n : node) : node :=
  match n with
  | File _ => n
  | Dir es =>
      match p with
      | [] => Dir (f es)
      | d :: p' =>
          match assoc d es with
          | Some c => Dir (set_entry d (update p' f c) es)
          | None => n
          end
      end
  end.

(** [os.path.exists], [os.path.isdir], [os.path.isfile] *)
Definition exists_ (fs : node) (p : path) : bool :=
  match lookup_path fs p with Some _ => true | None => false end.
Definition isdir (fs : node) (p : path) : bool :=
  match lookup_path fs p with Some (Dir _) => true | _ => false end.
Definition isfile (fs : node) (p : path) : bool :=
  match lookup_path fs p with Some (File _) => true | _ => false end.

(** [os.listdir] *)
Definition listdir (fs : node) (p : path) : result (list string) :=
  match lookup_path fs p with
  | Some (Dir es) => Ok (es.*1)
  | Some (File _) => Raise NotADirectoryError
  | None => Raise FileNotFoundError
  end.

(** [open(p, 'rb').read()] *)
Definition read (fs : node) (p : path) : result (list Byte.byte) :=
  match lookup_path fs p with
  | Some (File (Some data)) => Ok data
  | Some (File None) => Raise PermissionError
  | Some (Dir _) => Raise IsADirectoryError
  | None => Raise FileNotFoundError
  end.

(** Split a path into its parent and its last component. *)
Definition split_last (p : path) : option (path * string) :=
  match reverse p with
  | [] => None
  | name :: rparent => Some (reverse rparent, name)
  end.

(** [os.remove] *)
Definition remove (fs : node) (p : path) : result node :=
  match split_last p with
  | None => Raise IsADirectoryError
  | Some (parent, name) =>
      match lookup_path fs p with
      | Some (File _) => Ok (update parent (remove_entry name) fs)
      | Some (Dir _) => Raise IsADirectoryError
      | None => Raise FileNotFoundError
      end
  end.

(** [os.rmdir] *)
Definition rmdir (fs : node) (p : path) : result node :=
  match split_last p with
  | None => Raise PermissionError
  | Some (parent, name) =>
      match lookup_path fs p with
      | Some (Dir []) => Ok (update parent (remove_entry name) fs)
      | Some (Dir (_ :: _)) => Raise DirectoryNotEmpty
      | Some (File _) => Raise NotADirectoryError
      | None => Raise FileNotFoundError
      end
  end.

(** Add an entry to a listing, replacing an entry of the same name. *)
Definition put_entry (name : string) (c : node) (es : list (string * node)) : list (string * node) :=
  match assoc name es with
  | Some _ => set_entry name c es
  | None => es ++ [(name, c)]
  end.

(** [open(p, 'wb').write(data)] *)
Definition write (fs : node) (p : path) (data : list Byte.byte) : result node :=
  match split_last p with
  | None => Raise IsADirectoryError
  | Some (parent, name) =>
      match lookup_path fs parent with
      | Some (Dir es) =>
          match assoc name es with
          | Some (Dir _) => Raise IsADirectoryError
          | Some (File None) => Raise PermissionError
          | _ => Ok (update parent (put_entry name (File (Some data))) fs)
          end
      | Some (File _) => Raise NotADirectoryError
      | None => Raise FileNotFoundError
      end
  end.

(** [os.makedirs(p, exist_ok=True)] *)
Fixpoint makedirs (p : path) (n : node) : result node :=
  match p with
  | [] => match n with Dir _ => Ok n | File _ => Raise FileExistsError end
  | d :: p' =>
      match n with
      | File _ => Raise NotADirectoryError
      | Dir es =>
          match assoc d es with
          | Some c => c' ← makedirs p' c; Ok (Dir (set_entry d c' es))
          | None => c' ← makedirs p' (Dir []); Ok (Dir (es ++ [(d, c')]))
          end
      end
  end.

(** [os.rename(src, dst)]: the node at [src] is taken out of its directory
    and put under the name [dst], replacing a file of that name. *)
Definition rename (fs : node) (src dst : path) : result node :=
  match split_last src, split_last dst with
  | Some (sparent, sname), Some (dparent, dname) =>
      match lookup_path fs src with
      | None => Raise FileNotFoundError
      | Some n =>
          let fs1 := update sparent (remove_entry sname) fs in
          match lookup_path fs1 dparent, lookup_path fs1 dst with
          | Some (Dir _), Some (Dir _) => Raise IsADirectoryError
          | Some (Dir _), _ => Ok (update dparent (put_entry dname n) fs1)
          | Some (File _), _ => Raise NotADirectoryError
          | None, _ => Raise FileNotFoundError
          end
      end
  | _, _ => Raise PermissionError
  end.

(** [shutil.move(src, dst)]: into [dst] when it is a directory, else a rename. *)
Definition move (fs : node) (src dst : path) : result node :=
  if isdir fs dst then
    match split_last src with
    | Some (_, sname) =>
        let real_dst := dst ++ [sname] in
        if exists_ fs real_dst then Raise ShutilError else rename fs src real_dst
    | None => Raise ShutilError
    end
  else rename fs src dst.

Definition dirnames (es : list (string * node)) : list string :=
  (filter (fun e => is_dir e.2 = true) es).*1.
Definition filenames (es : list (string * node)) : list string :=
  (filter (fun e => is_dir e.2 = false) es).*1.

(** The triples [(dirpath, dirnames, filenames)] that [os.walk] yields for
    the tree [n] rooted at [top]: a directory before its subdirectories
    when [topdown], after them otherwise; entries in listing order. *)
Fixpoint walk (topdown : bool) (top : path) (n : node) : list (path * list string * list string) :=
  match n with
  | File _ => []
  | Dir es =>
      let here := (top, dirnames es, filenames es) in
      let below :=
        (fix walk_entries (l : list (string * node)) :=
           match l with
           | [] => []
           | (name, c) :: l' => walk topdown (top ++ [name]) c ++ walk_entries l'
           end) es in
      if topdown then here :: below else below ++ [here]
  end.

(** [os.walk(top)] yields nothing when [top] is missing or is a file. The
    triples are those of the tree as it is when the walk starts: the loops
    that change the tree while walking it only remove entries of
    directories that were already yielded. *)
Definition os_walk (fs : node) (top : path) (topdown : bool) : list (path * list string * list string) :=
  match lookup_path fs top with
  | Some n => walk topdown top n
  | None => []
  end.

(** No directory lists a name twice. *)
Fixpoint wf (n : node) : bool :=
  match n with
  | File _ => true
  | Dir es =>
      bool_decide (NoDup es.*1) &&
      (fix wf_entries (l : list (string * node)) :=
         match l with
         | [] => true
         | (_, c) :: l' => wf c && wf_entries l'
         end) es
  end.

End FS.

(** ** [class FileManager] *)

(** One line of [log_messages]; [render_log] gives the text the code appends. *)
Inductive log_line : Type :=
| LogStartScan
| LogIndexing (reference_dir : path)
| LogReadError (filepath : path) (e : exn)
| LogIndexComplete (unique : nat)
| LogChecking (check_dir : path)
| LogDuplicateFound (filepath : path) (reference_name : string)
| LogDeleted (filepath : path)
| LogCheckError (filepath : path) (e : exn)
| LogStartCleanup
| LogFoundEmpty (dirpath : path)
| LogDeletedEmpty (dirpath : path)
| LogFolderError (dirpath : path) (e : exn).

(** A call of [progress_callback(current, total, filename)]. *)
Record progress_event : Type := Progress {
  current_index : nat;
  total_count : nat;
  label : string
}.

(** [hashlib.md5(data).hexdigest()], the digest function the code imports. *)
Class Hashlib : Type := { md5 : list Byte.byte → string }.

Module FileManager.

Definition show_path (p : path) : string :=
  match p with
  | [] => "/"
  | _ => foldr (fun d acc => "/" +:+ d +:+ acc) "" p
  end.

Definition show_exn (e : exn) : string :=
  match e with
  | FileNotFoundError => "No such file or directory"
  | FileExistsError => "File exists"
  | IsADirectoryError => "Is a directory"
  | NotADirectoryError => "Not a directory"
  | PermissionError => "Permission denied"
  | DirectoryNotEmpty => "Directory not empty"
  | ShutilError => "Destination path already exists"
  | EOFError => "EOF"
  | OverflowError => "cannot convert float infinity to integer"
  | ValueError msg => msg
  | NameError name => "name '" +:+ name +:+ "' is not defined"
  end.

Definition render_log (l : log_line) : string :=
  match l with
  | LogStartScan => "Starting duplicate scan..."
  | LogIndexing d => "Indexing files in reference directory: '" +:+ show_path d +:+ "'..."
  | LogReadError p e => "Error reading file '" +:+ show_path p +:+ "': " +:+ show_exn e
  | LogIndexComplete n =>
      "Indexing complete. Found " +:+ pretty n +:+ " unique files in reference."
  | LogChecking d =>
      String "010" ("Checking for exact file duplicates in directory: '" +:+ show_path d +:+ "'...")
  | LogDuplicateFound p r =>
      "Duplicate found: '" +:+ show_path p +:+ "' (matches '" +:+ r +:+ "')"
  | LogDeleted p => "Deleted: '" +:+ show_path p +:+ "'"
  | LogCheckError p e => "Error checking file '" +:+ show_path p +:+ "': " +:+ show_exn e
  | LogStartCleanup => "Starting empty folder cleanup..."
  | LogFoundEmpty d =>
      "Found empty folder (will not delete in dry run): '" +:+ show_path d +:+ "'"
  | LogDeletedEmpty d => "Deleted empty folder: '" +:+ show_path d +:+ "'"
  | LogFolderError d e =>
      "Error accessing or deleting folder '" +:+ show_path d +:+ "': " +:+ show_exn e
  end.

(** *** [_get_unique_filename] *)

(** The [while] loop, entered with [counter] and [new_filename]; [fuel] bounds
    the number of iterations. *)
Fixpoint unique_loop (fuel : nat) (fs : node) (destination_folder : path)
    (base_name extension : string) (counter : nat) (new_filename : string) : string :=
  match fuel with
  | O => new_filename
  | S fuel' =>
      if FS.exists_ fs (destination_folder ++ [new_filename])
      then unique_loop fuel' fs destination_folder base_name extension
             (S counter) (Str.numbered base_name (S counter) extension)
      else new_filename
  end.

(** The number of names the destination folder lists: the loop probes the
    original name and then pairwise distinct numbered names, so one probe more
    than the folder has entries always reaches a free name. *)
Definition entry_count (fs : node) (p : path) : nat :=
  match FS.lookup_path fs p with
  | Some (Dir es) => length es
  | _ => 0
  end.

Definition _get_unique_filename (fs : node) (destination_folder : path)
    (original_filename : string) : string :=
  let '(base_name, extension) := Str.splitext original_filename in
  unique_loop (S (S (entry_count fs destination_folder))) fs destination_folder
    base_name extension 0 original_filename.

(** *** [sort_files] *)

Definition destination_folder_name (selected_ext : string) : string :=
  if decide (selected_ext = "no_extension") then "no_extension"
  else selected_ext +:+ "_files".

(** [os.path.splitext(file_name)[1].lstrip('.').lower()] *)
Definition file_extension (file_name : string) : string :=
  Str.lower (Str.lstrip_dot (Str.splitext file_name).2).

Definition selected (selected_ext file_name : string) : bool :=
  let ext := file_extension file_name in
  (bool_decide (selected_ext = "no_extension") && bool_decide (ext = ""))
  || (negb (bool_decide (selected_ext = "no_extension")) && bool_decide (ext = selected_ext)).

(** The first loop: [files_to_move_info], pairs of [full_original_path] and
    [file_name]. *)
Definition files_to_move (selected_ext : string) (destination_folder : path)
    (triples : list (path * list string * list string)) : list (path * string) :=
  triples ≫= (fun '(root, _, files) =>
    if decide (root = destination_folder) then []
    else (fun file_name => (root ++ [file_name], file_name))
           <$> filter (fun file_name => selected selected_ext file_name = true) files).

Record sort_state : Type := SortState {
  sort_fs : node;
  moved_count : nat;
  skipped_count : nat;
  sort_progress : list progress_event
}.

(** One iteration of the second loop, for the [i]-th pair. *)
Definition move_one (destination_folder : path) (total_files : nat)
    (st : sort_state) (i : nat) (info : path * string) : sort_state :=
  let '(original_full_path, file_name_only) := info in
  let progress := sort_progress st ++ [Progress (i + 1) total_files file_name_only] in
  let unique_filename := _get_unique_filename (sort_fs st) destination_folder file_name_only in
  let destination_path := destination_folder ++ [unique_filename] in
  match FS.move (sort_fs st) original_full_path destination_path with
  | Ok fs' => SortState fs' (S (moved_count st)) (skipped_count st) progress
  | Raise _ => SortState (sort_fs st) (moved_count st) (S (skipped_count st)) progress
  end.

Fixpoint move_all (destination_folder : path) (total_files : nat) (st : sort_state)
    (i : nat) (infos : list (path * string)) : sort_state :=
  match infos with
  | [] => st
  | info :: infos' =>
      move_all destination_folder total_files
        (move_one destination_folder total_files st i info) (S i) infos'
  end.

Definition sort_files (fs : node) (source_dir : path) (selected_ext : string)
    : result (sort_state) :=
  let destination_folder := source_dir ++ [destination_folder_name selected_ext] in
  fs1 ← FS.makedirs destination_folder fs;
  let files_to_move_info :=
    files_to_move selected_ext destination_folder (FS.os_walk fs1 source_dir true) in
  let total_files := length files_to_move_info in
  Ok (move_all destination_folder total_files (SortState fs1 0 0 []) 0 files_to_move_info).

(** *** [find_duplicates] *)

Section Hashing.

Context `{!Hashlib}.

(** The indexing loop body: [reference_hashes[file_hash] = filename]. *)
Definition index_file (fs : node) (st : gmap string string * list log_line)
    (root : path) (filename : string) : gmap string string * list log_line :=
  let filepath := root ++ [filename] in
  match FS.read fs filepath with
  | Ok data => (<[md5 data := filename]> st.1, st.2)
  | Raise e => (st.1, st.2 ++ [LogReadError filepath e])
  end.

Definition build_index (fs : node) (reference_dir : path) (log : list log_line)
    : gmap string string * list log_line :=
  foldl (fun st '(root, _, files) => foldl (fun st filename => index_file fs st root filename) st files)
    (∅, log) (FS.os_walk fs reference_dir true).

Record dup_state : Type := DupState {
  dup_fs : node;
  found_count : nat;
  deleted_count : nat;
  log_messages : list log_line
}.

(** The checking loop body, for one file of the check tree. *)
Definition check_file (reference_hashes : gmap string string) (dry_run : bool)
    (st : dup_state) (root : path) (filename : string) : dup_state :=
  let filepath_to_check := root ++ [filename] in
  match FS.read (dup_fs st) filepath_to_check with
  | Raise e =>
      DupState (dup_fs st) (found_count st) (deleted_count st)
        (log_messages st ++ [LogCheckError filepath_to_check e])
  | Ok data =>
      match reference_hashes !! md5 data with
      | None => st
      | Some reference_name =>
          let found := S (found_count st) in
          let log := log_messages st ++ [LogDuplicateFound filepath_to_check reference_name] in
          if dry_run then DupState (dup_fs st) found (deleted_count st) log
          else
            match FS.remove (dup_fs st) filepath_to_check with
            | Ok fs' =>
                DupState fs' found (S (deleted_count st)) (log ++ [LogDeleted filepath_to_check])
            | Raise e =>
                DupState (dup_fs st) found (deleted_count st)
                  (log ++ [LogCheckError filepath_to_check e])
            end
      end
  end.

Definition check_all (reference_hashes : gmap string string) (dry_run : bool)
    (st : dup_state) (triples : list (path * list string * list string)) : dup_state :=
  foldl (fun st '(root, _, files) =>
           foldl (fun st filename => check_file reference_hashes dry_run st root filename) st files)
    st triples.

Definition find_duplicates (fs : node) (reference_dir check_dir : path) (dry_run : bool)
    : dup_state :=
  let log := [LogStartScan; LogIndexing reference_dir] in
  let '(reference_hashes, log) := build_index fs reference_dir log in
  let log := log ++ [LogIndexComplete (size reference_hashes); LogChecking check_dir] in
  check_all reference_hashes dry_run (DupState fs 0 0 log) (FS.os_walk fs check_dir true).

End Hashing.

(** *** [delete_empty_folders] *)

Record prune_state : Type := PruneState {
  prune_fs : node;
  prune_count : nat;
  prune_log : list log_line
}.

(** The loop body for one [dirpath] of the bottom-up walk. *)
Definition visit_folder (target_dir : path) (dry_run : bool) (st : prune_state)
    (dirpath : path) : prune_state :=
  if decide (dirpath = target_dir) then st
  else
    match FS.listdir (prune_fs st) dirpath with
    | Raise e =>
        PruneState (prune_fs st) (prune_count st) (prune_log st ++ [LogFolderError dirpath e])
    | Ok [] =>
        if dry_run then
          PruneState (prune_fs st) (S (prune_count st)) (prune_log st ++ [LogFoundEmpty dirpath])
        else
          match FS.rmdir (prune_fs st) dirpath with
          | Ok fs' =>
              PruneState fs' (S (prune_count st)) (prune_log st ++ [LogDeletedEmpty dirpath])
          | Raise e =>
              PruneState (prune_fs st) (prune_count st)
                (prune_log st ++ [LogFolderError dirpath e])
          end
    | Ok (_ :: _) => st
    end.

Definition delete_empty_folders (fs : node) (target_dir : path) (dry_run : bool)
    : prune_state :=
  foldl (fun st '(dirpath, _, _) => visit_folder target_dir dry_run st dirpath)
    (PruneState fs 0 [LogStartCleanup]) (FS.os_walk fs target_dir false).

End FileManager.

(** ** [class ImageProcessor]: the batch entry points *)

(** The part of Pillow the batch code calls. An image has a size and a mode;
    [frames] are the frames that [seek(0)], [seek(1)], ... reach before
    [EOFError]; [open_image] is [Image.open] on a file's bytes; [save] gives
    the bytes written for a format name and an optional quality. *)
Class Pillow : Type := {
  image : Type;
  size : image → Z * Z;
  mode : image → string;
  frames : image → list image;
  open_image : list Byte.byte → result image;
  resize : image → Z * Z → result image;
  convert : image → string → result image;
  save : image → string → option Z → result (list Byte.byte)
}.

(** What the code relies on: [resize] returns an image of the size asked for
    and [convert] one of the mode asked for, of the same size. *)
Class PillowLaws `{Pillow} : Prop := {
  resize_size : ∀ img sz r, resize img sz = Ok r → size r = sz;
  convert_mode : ∀ img m r, convert img m = Ok r → mode r = m;
  convert_size : ∀ img m r, convert img m = Ok r → size r = size img
}.

Module Float.

(** [float(n)] for an image dimension [n] (below [2^63]). *)
Definition of_int (n : Z) : PrimFloat.float := PrimFloat.of_uint63 (Uint63.of_Z n).

(** The integer part of a binary64 value [(-1)^s * m * 2^e], rounded towards
    zero ([quot]) or downwards ([div]). *)
Definition trunc_SF (x : SpecFloat.spec_float) : option Z :=
  match x with
  | SpecFloat.S754_zero _ => Some 0%Z
  | SpecFloat.S754_finite s m e =>
      let n := if s then Z.neg m else Z.pos m in
      Some (if (0 <=? e)%Z then n * 2 ^ e else Z.quot n (2 ^ (- e)))%Z
  | _ => None
  end.

Definition floor_SF (x : SpecFloat.spec_float) : option Z :=
  match x with
  | SpecFloat.S754_zero _ => Some 0%Z
  | SpecFloat.S754_finite s m e =>
      let n := if s then Z.neg m else Z.pos m in
      Some (if (0 <=? e)%Z then n * 2 ^ e else n / 2 ^ (- e))%Z
  | _ => None
  end.

(** [math.floor(x)] *)
Definition floor (x : PrimFloat.float) : option Z := floor_SF (FloatOps.Prim2SF x).

(** [int(x)]: truncation; raises on an infinity or a NaN. *)
Definition to_int (x : PrimFloat.float) : result Z :=
  match FloatOps.Prim2SF x with
  | SpecFloat.S754_infinity _ => Raise OverflowError
  | SpecFloat.S754_nan => Raise (ValueError "cannot convert float NaN to integer")
  | sf => match trunc_SF sf with Some z => Ok z | None => Raise OverflowError end
  end.

End Float.

(** A call of [progress_callback] of the frame extractor. *)
Record frame_event : Type := FrameProgress {
  gif_index : nat;
  total_gifs : nat;
  gif_label : string;
  frame_number : nat;
  frames_in_gif : nat
}.

Module ImageProcessor.

Section Batch.

Context `{!Pillow}.

Definition supported_formats : list string :=
  [".jpg"; ".jpeg"; ".png"; ".bmp"; ".gif"; ".tiff"; ".webp";
   ".psd"; ".hdr"; ".tga"; ".xcf"; ".miff"; ".dcm"; ".xpm"; ".pcx";
   ".fits"; ".ppm"; ".pgm"; ".pfm"; ".mng"; ".dds"; ".otb"; ".pdf";
   ".avif"; ".heic"; ".heif";
   ".cr2"; ".rw2"; ".nef"; ".arw"; ".sr2"; ".orf"; ".pef"; ".raf"; ".srw"; ".mrw";
   ".dcr"; ".dng"; ".erf"; ".3fr"; ".ari"; ".srf"; ".bay"; ".crw"; ".cap"; ".iiq";
   ".eip"; ".dcs"; ".drf"; ".k25"; ".kdc"; ".fff"; ".mef"; ".mos"; ".nrw"; ".ptx";
   ".pxn"; ".r3d"; ".rwl"; ".rwz"; ".x3f"; ".mdc"].

(** An image handed to [save], with the path it is written to. *)
Record saved_image : Type := Saved {
  saved_path : path;
  saved_source : string;
  saved_img : image
}.

Record batch_state : Type := BatchState {
  batch_fs : node;
  processed_count : nat;
  batch_progress : list progress_event;
  batch_saved : list saved_image
}.

(** [int(dimension * percentage)] *)
Definition scaled (dimension : Z) (percentage : PrimFloat.float) : result Z :=
  Float.to_int (PrimFloat.mul (Float.of_int dimension) percentage).

(** The body of the [try] for one file: the new tree and the image saved. *)
Definition process_image (fs : node) (source_dir dest_dir : path)
    (percentage : PrimFloat.float) (output_format : string) (quality : Z)
    (filename : string) : result (node * saved_image) :=
  let filepath := source_dir ++ [filename] in
  data ← FS.read fs filepath;
  img ← open_image data;
  let '(original_width, original_height) := size img in
  new_width ← scaled original_width percentage;
  new_height ← scaled original_height percentage;
  resized_img ← resize img (new_width, new_height);
  let '(base_name, _) := Str.splitext filename in
  let output_filepath := dest_dir ++ [base_name +:+ "." +:+ Str.lower output_format] in
  if bool_decide (Str.lower output_format ∈ ["jpeg"; "webp"]) then
    resized_img ← (if bool_decide (mode resized_img ∈ ["RGBA"; "P"])
                   then convert resized_img "RGB" else Ok resized_img);
    bytes ← save resized_img (Str.lower output_format) (Some quality);
    fs' ← FS.write fs output_filepath bytes;
    Ok (fs', Saved output_filepath filename resized_img)
  else
    bytes ← save resized_img (Str.lower output_format) None;
    fs' ← FS.write fs output_filepath bytes;
    Ok (fs', Saved output_filepath filename resized_img).

Definition process_one (source_dir dest_dir : path) (percentage : PrimFloat.float)
    (output_format : string) (quality : Z) (total_files : nat)
    (st : batch_state) (i : nat) (filename : string) : batch_state :=
  let progress := batch_progress st ++ [Progress (i + 1) total_files filename] in
  match process_image (batch_fs st) source_dir dest_dir percentage output_format quality
          filename with
  | Ok (fs', out) =>
      BatchState fs' (S (processed_count st)) progress (batch_saved st ++ [out])
  | Raise _ => BatchState (batch_fs st) (processed_count st) progress (batch_saved st)
  end.

Fixpoint process_all (source_dir dest_dir : path) (percentage : PrimFloat.float)
    (output_format : string) (quality : Z) (total_files : nat)
    (st : batch_state) (i : nat) (image_files : list string) : batch_state :=
  match image_files with
  | [] => st
  | filename :: rest =>
      process_all source_dir dest_dir percentage output_format quality total_files
        (process_one source_dir dest_dir percentage output_format quality total_files
           st i filename)
        (S i) rest
  end.

Definition batch_process_images (fs : node) (source_dir dest_dir : path)
    (percentage : PrimFloat.float) (output_format : string) (quality : Z)
    : result batch_state :=
  if negb (FS.isdir fs source_dir) || negb (FS.isdir fs dest_dir)
  then Raise (ValueError "Source or destination directory is not valid.")
  else
    fs1 ← FS.makedirs dest_dir fs;
    names ← FS.listdir fs1 source_dir;
    let image_files :=
      filter (fun filename =>
                existsb (Str.endswith (Str.lower filename)) supported_formats = true) names in
    match image_files with
    | [] => Ok (BatchState fs1 0 [] [])
    | _ =>
        Ok (process_all source_dir dest_dir percentage output_format quality
              (length image_files) (BatchState fs1 0 [] []) 0 image_files)
    end.

(** *** [extract_gif_frames] *)

(** The names bound where the function body runs: its parameters, and the
    names the module defines or imports. *)
Definition bound_names (input_path output_base_directory : path)
    : list (string * option path) :=
  [("self", None); ("input_path", Some input_path);
   ("output_base_directory", Some output_base_directory);
   ("is_single_file", None); ("progress_callback", None);
   ("os", None); ("Image", None); ("ImageFilter", None); ("ImageEnhance", None);
   ("ImageProcessor", None)].

(** Reading a variable that holds a path. *)
Definition load_name (name : string) (env : list (string * option path)) : result path :=
  match list_find (fun b => b.1 = name) env with
  | Some (_, (_, Some p)) => Ok p
  | Some (_, (_, None)) => Raise (ValueError "not a path")
  | None => Raise (NameError name)
  end.

(** [f"{frame_count:04d}"] *)
Definition pad4 (n : nat) : string :=
  let s := pretty n in
  String.string_of_list_ascii (replicate (4 - String.length s) "0"%char) +:+ s.

Record extract_state : Type := ExtractState {
  extract_fs : node;
  total_frames_extracted : nat;
  extract_progress : list frame_event
}.

(** The [while True] loop over the frames that [seek] still reaches; the
    result is an [EOFError] at the end of the frames, or the exception that
    interrupted the loop. *)
Fixpoint save_frames (output_gif_folder : path) (gif_name_without_ext gif_filename : string)
    (gif_idx total : nat) (n_frames : nat) (st : extract_state) (frame_count : nat)
    (remaining : list image) : extract_state * exn :=
  match remaining with
  | [] => (st, EOFError)
  | frame :: rest =>
      let attempt :=
        frame ← (if decide (mode frame = "RGBA") then Ok frame else convert frame "RGBA");
        let frame_output_path :=
          output_gif_folder ++ [gif_name_without_ext +:+ "_frame_" +:+ pad4 frame_count +:+ ".png"] in
        bytes ← save frame "PNG" None;
        FS.write (extract_fs st) frame_output_path bytes in
      match attempt with
      | Ok fs' =>
          save_frames output_gif_folder gif_name_without_ext gif_filename gif_idx total n_frames
            (ExtractState fs' (S (total_frames_extracted st))
               (extract_progress st ++
                  [FrameProgress (gif_idx + 1) total gif_filename (S frame_count) n_frames]))
            (S frame_count) rest
      | Raise e => (st, e)
      end
  end.

(** The body of the outer [try] for one GIF. *)
Definition extract_one (input_path output_base_directory : path) (is_single_file : bool)
    (total : nat) (st : extract_state) (gif_idx : nat) (gif_path : path) : extract_state :=
  let gif_filename := default "" (last gif_path) in
  let gif_name_without_ext := (Str.splitext gif_filename).1 in
  let output_gif_folder :=
    if is_single_file then output_base_directory ++ [gif_name_without_ext]
    else
      let relative_path := drop (length input_path) (removelast gif_path) in
      output_base_directory ++ relative_path ++ [gif_name_without_ext] in
  match FS.makedirs output_gif_folder (extract_fs st) with
  | Raise _ => st
  | Ok fs1 =>
      match (data ← FS.read fs1 gif_path; open_image data) with
      | Raise _ => ExtractState fs1 (total_frames_extracted st) (extract_progress st)
      | Ok img =>
          (save_frames output_gif_folder gif_name_without_ext gif_filename gif_idx total
             (length (frames img))
             (ExtractState fs1 (total_frames_extracted st) (extract_progress st))
             0 (frames img)).1
      end
  end.

Fixpoint extract_all (input_path output_base_directory : path) (is_single_file : bool)
    (total : nat) (st : extract_state) (gif_idx : nat) (gif_files : list path)
    : extract_state :=
  match gif_files with
  | [] => st
  | gif_path :: rest =>
      extract_all input_path output_base_directory is_single_file total
        (extract_one input_path output_base_directory is_single_file total st gif_idx gif_path)
        (S gif_idx) rest
  end.

Definition extract_gif_frames (fs : node) (input_path output_base_directory : path)
    (is_single_file : bool) : result extract_state :=
  gif_files ←
    (if is_single_file then
       if negb (FS.isfile fs input_path)
          || negb (Str.endswith (Str.lower (FileManager.show_path input_path)) ".gif")
       then Raise (ValueError "Invalid single GIF file path")
       else Ok [input_path]
     else
       if negb (FS.isdir fs input_path) then Raise FileNotFoundError
       else
         input_directory ← load_name "input_directory"
                             (bound_names input_path output_base_directory);
         Ok (FS.os_walk fs input_directory true ≫= (fun '(root, _, files) =>
               (fun filename => root ++ [filename])
                 <$> filter (fun filename => Str.endswith (Str.lower filename) ".gif" = true)
                       files)));
  match gif_files with
  | [] => Ok (ExtractState fs 0 [])
  | _ =>
      fs1 ← FS.makedirs output_base_directory fs;
      Ok (extract_all input_path output_base_directory is_single_file (length gif_files)
            (ExtractState fs1 0 []) 0 gif_files)
  end.

End Batch.

End ImageProcessor.

(** ** What the operations return *)

(** Python values, as far as the return values of the operations need them. *)
#[warnings="-register-all"] Inductive pyval : Type :=
| PyInt (n : Z)
| PyStr (s : string)
| PyList (items : list pyval)
| PyTuple (items : list pyval).

#[warnings="-register-all"] Inductive shape : Type :=
| SInt
| SStr
| SListOf (item : shape)
| STuple (items : list shape).

Fixpoint has_shape (s : shape) (v : pyval) {struct v} : bool :=
  match v, s with
  | PyInt _, SInt => true
  | PyStr _, SStr => true
  | PyList items, SListOf s' => forallb (has_shape s') items
  | PyTuple items, STuple ss =>
      (fix all2 (ss : list shape) (vs : list pyval) {struct vs} : bool :=
         match vs, ss with
         | [], [] => true
         | v' :: vs', s' :: ss' => has_shape s' v' && all2 ss' vs'
         | _, _ => false
         end) ss items
  | _, _ => false
  end.

(** The shape the specification calls OperationResult: a succeeded count, a
    failed count and the ordered log lines. *)
Definition operation_result : shape := STuple [SInt; SInt; SListOf SStr].

Definition py_log (log : list log_line) : pyval :=
  PyList (PyStr <$> (FileManager.render_log <$> log)).

(** The mutating operations with their arguments. *)
Inductive operation : Type :=
| Sort (source_dir : path) (selected_ext : string)
| Dedupe (reference_dir check_dir : path) (dry_run : bool)
| Prune (target_dir : path) (dry_run : bool)
| Transcode (source_dir dest_dir : path) (percentage : PrimFloat.float)
    (output_format : string) (quality : Z)
| Extract (input_path output_base_directory : path) (is_single_file : bool).

Section Returns.

Context `{!Hashlib} `{!Pillow}.

(** The value each operation returns to its caller, from the [return]
    statement of its source. *)
Definition returned (op : operation) (fs : node) : result pyval :=
  match op with
  | Sort source_dir selected_ext =>
      st ← FileManager.sort_files fs source_dir selected_ext;
      Ok (PyTuple [PyInt (Z.of_nat (FileManager.moved_count st));
                   PyInt (Z.of_nat (FileManager.skipped_count st))])
  | Dedupe reference_dir check_dir dry_run =>
      let st := FileManager.find_duplicates fs reference_dir check_dir dry_run in
      Ok (PyTuple [PyInt (Z.of_nat (FileManager.found_count st));
                   PyInt (Z.of_nat (FileManager.deleted_count st));
                   py_log (FileManager.log_messages st)])
  | Prune target_dir dry_run =>
      let st := FileManager.delete_empty_folders fs target_dir dry_run in
      Ok (PyTuple [PyInt (Z.of_nat (FileManager.prune_count st));
                   py_log (FileManager.prune_log st)])
  | Transcode source_dir dest_dir percentage output_format quality =>
      st ← ImageProcessor.batch_process_images fs source_dir dest_dir percentage
             output_format quality;
      Ok (PyInt (Z.of_nat (ImageProcessor.processed_count st)))
  | Extract input_path output_base_directory is_single_file =>
      st ← ImageProcessor.extract_gif_frames fs input_path output_base_directory
             is_single_file;
      Ok (PyInt (Z.of_nat (ImageProcessor.total_frames_extracted st)))
  end.

(** The shape of each operation's return value. *)
Definition return_shape (op : operation) : shape :=
  match op with
  | Sort _ _ => STuple [SInt; SInt]
  | Dedupe _ _ _ => STuple [SInt; SInt; SListOf SStr]
  | Prune _ _ => STuple [SInt; SListOf SStr]
  | Transcode _ _ _ _ _ => SInt
  | Extract _ _ _ => SInt
  end.

End Returns.

(** A stand-in image library for examples: an image is its size, its mode
    and the modes of its frames; a file decodes to a 4 by 2 RGBA image with
    as many palette frames as it has bytes. *)
Record toy_image : Type := Toy {
  toy_size : Z * Z;
  toy_mode : string;
  toy_frames : nat
}.

#[local] Instance toy_pillow : Pillow := {|
  image := toy_image;
  size := toy_size;
  mode := toy_mode;
  frames := fun img => replicate (toy_frames img) (Toy (toy_size img) "P" 0);
  open_image := fun data => Ok (Toy (4, 2)%Z "RGBA" (length data));
  resize := fun img sz =>
    if ((sz.1 <? 1) || (sz.2 <? 1))%Z
    then Raise (ValueError "height and width must be > 0")
    else Ok (Toy sz (toy_mode img) (toy_frames img));
  convert := fun img m => Ok (Toy (toy_size img) m (toy_frames img));
  save := fun img fmt quality => Ok []
|}.

(** A stand-in digest for examples: the length of the content, in decimal. *)
#[local] Instance toy_hashlib : Hashlib := {| md5 := fun data => pretty (length data) |}.

(** ** Definitions used in the statements *)

(** The name the loop holds when its counter is [j]. *)
Definition probe (original_filename : string) (j : nat) : string :=
  match j with
  | O => original_filename
  | S _ => Str.numbered (Str.splitext original_filename).1 j (Str.splitext original_filename).2
  end.

(** The [(root, filename)] pairs that the nested loops over a walk visit, in
    order. *)
Definition walk_files (triples : list (path * list string * list string))
    : list (path * string) :=
  triples ≫= (fun '(root, _, files) => (fun filename => (root, filename)) <$> files).

Definition is_deletion (l : log_line) : bool :=
  match l with
  | LogDeleted _ | LogDeletedEmpty _ => true
  | _ => false
  end.


Definition is_duplicate_found (l : log_line) : bool :=
  match l with
  | LogDuplicateFound _ _ => true
  | _ => false
  end.

Definition is_read_error (l : log_line) : bool :=
  match l with
  | LogReadError _ _ => true
  | _ => false
  end.

(** The readable files of the reference tree in walk order, each with its
    digest. *)
Definition reference_files `{!Hashlib} (fs : node) (reference_dir : path)
    : list (string * string) :=
  omap (fun '(root, filename) =>
          match FS.read fs (root ++ [filename]) with
          | Ok data => Some (md5 data, filename)
          | Raise _ => None
          end)
       (walk_files (FS.os_walk fs reference_dir true)).

(** The filename of the first, and of the last, file of a list that has the
    digest [d]. *)
Fixpoint first_seen (d : string) (l : list (string * string)) : option string :=
  match l with
  | [] => None
  | (d', filename) :: l' => if decide (d' = d) then Some filename else first_seen d l'
  end.

Fixpoint last_seen (d : string) (l : list (string * string)) : option string :=
  match l with
  | [] => None
  | (d', filename) :: l' =>
      match last_seen d l' with
      | Some later => Some later
      | None => if decide (d' = d) then Some filename else None
      end
  end.



(** The triples of the subdirectories listed in [es], in listing order. *)
Definition walk_below (topdown : bool) (top : path) (es : list (string * node))
    : list (path * list string * list string) :=
  es ≫= (fun '(name, c) => FS.walk topdown (top ++ [name]) c).

(** What the checking loop of [find_duplicates] keeps true, relative to the
    tree [fs0] it started from and the index [idx]: files are only ever
    removed, a removed file was logged as deleted, every reported file has
    content whose digest is in the index, a deletion follows a report, and
    no more files are deleted than found. *)
Definition scan_inv `{!Hashlib} (fs0 : node) (idx : gmap string string)
    (st : FileManager.dup_state) : Prop :=
  (∀ q n, FS.lookup_path (FileManager.dup_fs st) q = Some (File n) →
          FS.lookup_path fs0 q = Some (File n)) ∧
  (∀ q n, FS.lookup_path fs0 q = Some (File n) →
          FS.lookup_path (FileManager.dup_fs st) q = Some (File n) ∨
          LogDeleted q ∈ FileManager.log_messages st) ∧
  (∀ q r, LogDuplicateFound q r ∈ FileManager.log_messages st →
          ∃ data, FS.lookup_path fs0 q = Some (File (Some data)) ∧ idx !! md5 data = Some r) ∧
  (∀ q, LogDeleted q ∈ FileManager.log_messages st →
        ∃ r, LogDuplicateFound q r ∈ FileManager.log_messages st) ∧
  FileManager.deleted_count st ≤ FileManager.found_count st.




Definition is_file_deletion (l : log_line) : bool :=
  match l with
  | LogDeleted _ => true
  | _ => false
  end.

(** *** [FileManager.scan_extensions] *)

(** The set [unique_extensions] after the walk, and its sorted list: the
    extension of each file, lowercased and without its dot, or
    ["no_extension"] for a file that has none. *)
Definition scan_extensions (fs : node) (source_dir : path) : list string :=
  let unique_extensions : gset string :=
    foldl (fun acc '(root, _, files) =>
             foldl (fun acc file_name =>
                      let file_extension := FileManager.file_extension file_name in
                      if decide (file_extension = "") then {["no_extension"]} ∪ acc
                      else {[file_extension]} ∪ acc)
               acc files)
      ∅ (FS.os_walk fs source_dir true) in
  merge_sort String.le (elements unique_extensions).


(** *** [ImageProcessor.crop_image] and [ImageProcessor.resize_image] *)

Section Editing.

Context `{!Pillow}.

(** [image.crop(box)], with the box as [(left, upper, right, lower)]. *)
Variable crop : image → Z * Z * Z * Z → image.

(** [image] is [None] or an image; [box] is the tuple given. *)
Definition crop_image (img : option image) (box : list Z) : option image :=
  match img, box with
  | Some image, [left0; upper0; right0; lower0] =>
      let '(img_width, img_height) := size image in
      let left_ := Z.max 0 left0 in
      let upper := Z.max 0 upper0 in
      let right_ := Z.min img_width right0 in
      let lower := Z.min img_height lower0 in
      if (left_ <? right_)%Z && (upper <? lower)%Z
      then Some (crop image (left_, upper, right_, lower))
      else img
  | _, _ => img
  end.


End Editing.

(** A binary64 value that is not negative: its sign bit is clear, or it is
    a NaN. *)
Definition nonneg_SF (x : SpecFloat.spec_float) : Prop :=
  match x with
  | SpecFloat.S754_zero s | SpecFloat.S754_infinity s | SpecFloat.S754_finite s _ _ => s = false
  | SpecFloat.S754_nan => True
  end.

(** The test of [batch_process_images] on a file name. *)
Definition supported (filename : string) : bool :=
  existsb (Str.endswith (Str.lower filename)) ImageProcessor.supported_formats.

(** What holds of an image that the batch saved: it is the output for a
    decoded image, has the scaled size, goes to [dest_dir] under the source's
    stem and the lowercased format, and for the formats [jpeg] and [webp] its
    mode is neither [RGBA] nor [P]. *)
Definition saved_as_specified `{!Pillow} (dest_dir : path) (percentage : PrimFloat.float)
    (output_format : string) (s : ImageProcessor.saved_image) : Prop :=
  ∃ data img new_width new_height,
    open_image data = Ok img ∧
    ImageProcessor.scaled (size img).1 percentage = Ok new_width ∧
    ImageProcessor.scaled (size img).2 percentage = Ok new_height ∧
    size (ImageProcessor.saved_img s) = (new_width, new_height) ∧
    ImageProcessor.saved_path s
      = dest_dir ++ [(Str.splitext (ImageProcessor.saved_source s)).1 +:+ "."
                     +:+ Str.lower output_format] ∧
    (Str.lower output_format ∈ ["jpeg"; "webp"] →
     mode (ImageProcessor.saved_img s) ∉ ["RGBA"; "P"]).


(** A path whose parent is not [folder]. *)
Definition outside_folder (folder q : path) : Prop :=
  ∃ root name, q = root ++ [name] ∧ root ≠ folder.

(** What the moving loop of [sort_files] keeps of the tree [fs1] it started
    from: no directory lists a name twice, and the directories are the
    same. *)
Definition sort_inv (fs1 cur : node) : Prop :=
  FS.wf cur = true ∧ ∀ q, FS.isdir cur q = FS.isdir fs1 q.

(** The files [sort_files] collects for moving: below [source_dir], in a
    folder other than the destination folder, with a name whose extension is
    the selected one. *)
Definition is_sort_candidate (source_dir : path) (selected_ext : string) (q : path) : Prop :=
  ∃ rel name, q = source_dir ++ rel ++ [name] ∧
    source_dir ++ rel ≠ source_dir ++ [FileManager.destination_folder_name selected_ext] ∧
    FileManager.selected selected_ext name = true.

(** [q'] lies strictly below [q]. *)
Definition strictly_below (q q' : path) : Prop := ∃ name rest, q' = q ++ name :: rest.

(** A sequence of paths in which nothing comes after one of its ancestors. *)
Fixpoint bottom_up (W : list path) : Prop :=
  match W with
  | [] => True
  | q :: W' => (∀ q', q' ∈ W' → ¬ strictly_below q q') ∧ bottom_up W'
  end.
(** * Properties *)

(** ** Strings *)

Lemma string_app_cons (a : ascii) (s t : string) : String a s +:+ t = String a (s +:+ t).
Proof. done. Qed.

Lemma string_app_length (s t : string) :
  String.length (s +:+ t) = String.length s + String.length t.
Proof.
  induction s as [|a s IH]; [done|].
  rewrite string_app_cons. simpl. by rewrite IH.
Qed.

Lemma string_app_inv_tail (s1 s2 t : string) : s1 +:+ t = s2 +:+ t → s1 = s2.
Proof.
  revert s2. induction s1 as [|a s1 IH]; intros [|b s2] Heq.
  - done.
  - apply (f_equal String.length) in Heq.
    rewrite !string_app_length in Heq. simpl in Heq. lia.
  - apply (f_equal String.length) in Heq.
    rewrite !string_app_length in Heq. simpl in Heq. lia.
  - rewrite !string_app_cons in Heq. injection Heq as -> Heq. f_equal. by apply IH.
Qed.

Lemma numbered_inj (base_name extension : string) (j k : nat) :
  Str.numbered base_name j extension = Str.numbered base_name k extension → j = k.
Proof.
  unfold Str.numbered. intros Heq.
  apply (inj (String.app base_name)) in Heq.
  change ("(" +:+ ?s) with (String "(" s) in Heq. injection Heq as Heq.
  change (pretty j +:+ (")" +:+ extension) = pretty k +:+ (")" +:+ extension)) in Heq.
  apply string_app_inv_tail in Heq. by apply (inj pretty).
Qed.

(** ** Path resolution *)

Lemma lookup_path_app (n : node) (p q : path) :
  FS.lookup_path n (p ++ q) = FS.lookup_path n p ≫= fun c => FS.lookup_path c q.
Proof.
  revert n. induction p as [|d p IH]; intros n; simpl; [done|].
  destruct n as [?|es]; [done|]. destruct (FS.assoc d es); [apply IH|done].
Qed.

Lemma assoc_Some_elem (name : string) (es : list (string * node)) (c : node) :
  FS.assoc name es = Some c → (name, c) ∈ es.
Proof.
  induction es as [|[k c0] es IH]; simpl; [done|].
  case_decide; intros; simplify_eq; [left | right; auto].
Qed.

Lemma assoc_None (name : string) (es : list (string * node)) :
  FS.assoc name es = None ↔ name ∉ es.*1.
Proof.
  induction es as [|[k c0] es IH]; simpl.
  - split; [intros _; apply not_elem_of_nil | done].
  - case_decide; subst.
    + split; [done | intros []; left].
    + rewrite IH, not_elem_of_cons. split; [intros ?; split; [congruence|done] | by intros [_ ?]].
Qed.

Lemma exists_child (fs : node) (p : path) (name : string) :
  FS.exists_ fs (p ++ [name]) = true →
  ∃ es, FS.lookup_path fs p = Some (Dir es) ∧ name ∈ es.*1.
Proof.
  unfold FS.exists_. rewrite lookup_path_app.
  destruct (FS.lookup_path fs p) as [[?|es]|]; simpl; try done.
  destruct (FS.assoc name es) as [c|] eqn:Hc; [|done]. intros _.
  exists es. split; [done|]. apply assoc_Some_elem in Hc.
  apply list_elem_of_fmap. by exists (name, c).
Qed.

(** ** [_get_unique_filename] *)

Lemma unique_loop_least (fs : node) (dest : path) (orig : string) (k : nat) :
  FS.exists_ fs (dest ++ [probe orig k]) = false →
  (∀ j, j < k → FS.exists_ fs (dest ++ [probe orig j]) = true) →
  ∀ fuel c, c ≤ k → k < c + fuel →
    FileManager.unique_loop fuel fs dest (Str.splitext orig).1 (Str.splitext orig).2
      c (probe orig c) = probe orig k.
Proof.
  intros Hfree Hbelow fuel. induction fuel as [|fuel IH]; intros c Hc Hk; [lia|].
  simpl. destruct (decide (c = k)) as [->|Hne].
  - by rewrite Hfree.
  - rewrite (Hbelow c) by lia. apply (IH (S c)); lia.
Qed.

(** Among the first [n + 1] numbered names, one is not in a folder of [n]
    entries. *)
Lemma free_numbered_name (fs : node) (dest : path) (base_name extension : string) :
  ∃ k, 1 ≤ k ≤ S (FileManager.entry_count fs dest) ∧
       FS.exists_ fs (dest ++ [Str.numbered base_name k extension]) = false.
Proof.
  set (n := FileManager.entry_count fs dest).
  set (name := fun k => Str.numbered base_name k extension).
  destruct (decide (Exists (fun k => FS.exists_ fs (dest ++ [name k]) = false) (seq 1 (S n))))
    as [Hex|Hall].
  - apply Exists_exists in Hex as (k & Hk & Hfree).
    apply elem_of_seq in Hk. exists k. split; [lia|done].
  - exfalso. apply not_Exists_Forall in Hall; [|intros ?; apply _].
    rewrite Forall_forall in Hall.
    assert (∀ k, k ∈ seq 1 (S n) → FS.exists_ fs (dest ++ [name k]) = true) as Hall'.
    { intros k Hk. specialize (Hall k Hk). simpl in Hall.
      by destruct (FS.exists_ fs (dest ++ [name k])). }
    assert (∃ es, FS.lookup_path fs dest = Some (Dir es)) as [es Hes].
    { destruct (exists_child fs dest (name 1)) as (es & ? & _); [|by eauto].
      apply Hall', elem_of_seq. lia. }
    assert (name <$> seq 1 (S n) ⊆+ es.*1) as Hsub.
    { apply NoDup_submseteq.
      - apply NoDup_fmap_2; [|apply NoDup_seq].
        intros j k. apply numbered_inj.
      - intros x (k & -> & Hk)%list_elem_of_fmap.
        destruct (exists_child fs dest (name k) (Hall' k Hk)) as (es' & Hes' & Hin).
        by simplify_eq. }
    apply submseteq_length in Hsub.
    rewrite !length_fmap, length_seq in Hsub.
    subst n. unfold FileManager.entry_count in Hsub. rewrite Hes in Hsub. lia.
Qed.

Lemma least_false (P : nat → bool) (k0 : nat) :
  P k0 = false → ∃ k, k ≤ k0 ∧ P k = false ∧ ∀ j, j < k → P j = true.
Proof.
  induction k0 as [k0 IH] using lt_wf_ind. intros Hfree.
  destruct (decide (Exists (fun j => P j = false) (seq 0 k0))) as [Hex|Hall].
  - apply Exists_exists in Hex as (j & Hj & Hfreej). apply elem_of_seq in Hj.
    destruct (IH j) as (k & ? & ? & ?); [lia|done|]. exists k. split; [lia|done].
  - exists k0. split; [done|]. split; [done|]. intros j Hj.
    apply not_Exists_Forall in Hall; [|intros ?; apply _].
    rewrite Forall_forall in Hall. specialize (Hall j). simpl in Hall.
    destruct (P j); [done|].
    exfalso. apply Hall; [apply elem_of_seq; lia | done].
Qed.

(** The least free index: the original name, or the first free numbered name. *)
Lemma least_free_probe (fs : node) (dest : path) (orig : string) :
  ∃ k, k ≤ S (FileManager.entry_count fs dest) ∧
       FS.exists_ fs (dest ++ [probe orig k]) = false ∧
       ∀ j, j < k → FS.exists_ fs (dest ++ [probe orig j]) = true.
Proof.
  destruct (free_numbered_name fs dest (Str.splitext orig).1 (Str.splitext orig).2)
    as (k0 & Hk0 & Hfree0).
  destruct (least_false (fun j => FS.exists_ fs (dest ++ [probe orig j])) k0)
    as (k & Hk & Hfree & Hbelow).
  { destruct k0; [lia|done]. }
  exists k. split; [lia|done].
Qed.

(** C6. The Unique-Name Resolver returns a name that does not exist in the
    destination folder; it is the candidate itself when [destination/candidate]
    does not exist, and otherwise [stem(k)+extension] for the smallest [k >= 1]
    whose name does not exist. *)
Theorem get_unique_filename_spec (fs : node) (destination_folder : path)
    (original_filename : string) :
  let new_filename := FileManager._get_unique_filename fs destination_folder original_filename in
  let stem := (Str.splitext original_filename).1 in
  let extension := (Str.splitext original_filename).2 in
  FS.exists_ fs (destination_folder ++ [new_filename]) = false ∧
  (FS.exists_ fs (destination_folder ++ [original_filename]) = false →
   new_filename = original_filename) ∧
  (FS.exists_ fs (destination_folder ++ [original_filename]) = true →
   ∃ k, 1 ≤ k ∧ new_filename = Str.numbered stem k extension ∧
        ∀ j, 1 ≤ j < k →
          FS.exists_ fs (destination_folder ++ [Str.numbered stem j extension]) = true).
Proof.
  intros new_filename stem extension.
  destruct (least_free_probe fs destination_folder original_filename)
    as (k & Hk & Hfree & Hbelow).
  assert (new_filename = probe original_filename k) as Hnew.
  { subst new_filename. unfold FileManager._get_unique_filename.
    destruct (Str.splitext original_filename) as [b e] eqn:Hsplit.
    pose proof (unique_loop_least fs destination_folder original_filename k Hfree Hbelow
                  (S (S (FileManager.entry_count fs destination_folder))) 0) as Hloop.
    rewrite Hsplit in Hloop. simpl in Hloop. apply Hloop; lia. }
  rewrite Hnew. split; [done|]. split.
  - intros Horig. destruct k as [|k]; [done|].
    specialize (Hbelow 0). simpl in Hbelow. rewrite Hbelow in Horig by lia. done.
  - intros Horig. destruct k as [|k].
    + simpl in Hfree. congruence.
    + exists (S k). split; [lia|]. split; [done|].
      intros j Hj. specialize (Hbelow j). destruct j; [lia|]. apply Hbelow. lia.
Qed.

(** [photo.png], then [photo(1).png], then [photo(2).png]. *)
Example get_unique_filename_photo :
  FileManager._get_unique_filename (Dir [("photo.png", File (Some []))]) [] "photo.png"
    = "photo(1).png" ∧
  FileManager._get_unique_filename
    (Dir [("photo.png", File (Some [])); ("photo(1).png", File (Some []))]) [] "photo.png"
    = "photo(2).png" ∧
  FileManager._get_unique_filename (Dir [("other.png", File (Some []))]) [] "photo.png"
    = "photo.png".
Proof. by vm_compute. Qed.

(** ** Loops over a walk *)

Lemma walk_loop_flat {S : Type} (body : S → path → string → S)
    (triples : list (path * list string * list string)) (st : S) :
  foldl (fun st '(root, _, files) => foldl (fun st filename => body st root filename) st files)
    st triples
  = foldl (fun st '(root, filename) => body st root filename) st (walk_files triples).
Proof.
  revert st. induction triples as [|[[root dirs] files] triples IH]; intros st; [done|].
  unfold walk_files. simpl. rewrite foldl_app, IH. f_equal.
  generalize st. induction files as [|f files IHf]; intros st'; simpl; [done|apply IHf].
Qed.

(** Filtering a log by one of the line tests, at the line just appended. *)
Ltac filter_last :=
  rewrite filter_app, length_app;
  first [ rewrite filter_cons_True by done | rewrite filter_cons_False by done ];
  rewrite filter_nil; simpl.

Lemma foldl_invariant {S A : Type} (P : S → Prop) (f : S → A → S) (l : list A) (st : S) :
  P st → (∀ st a, P st → P (f st a)) → P (foldl f st l).
Proof. revert st. induction l; simpl; eauto. Qed.

(** ** Dry runs (C1) *)

Section DryRun.

Context `{!Hashlib}.


Lemma build_index_no_deletion (fs : node) (reference_dir : path) (log : list log_line) :
  Forall (fun l => is_deletion l = false) log →
  filter (fun l => is_duplicate_found l = true) log = [] →
  Forall (fun l => is_deletion l = false) (FileManager.build_index fs reference_dir log).2 ∧
  filter (fun l => is_duplicate_found l = true)
    (FileManager.build_index fs reference_dir log).2 = [].
Proof.
  intros Hlog Hdup. unfold FileManager.build_index.
  rewrite (walk_loop_flat (FileManager.index_file fs)).
  apply (foldl_invariant
    (fun st : gmap string string * list log_line =>
       Forall (fun l => is_deletion l = false) st.2 ∧
       filter (fun l => is_duplicate_found l = true) st.2 = [])); [done|].
  intros [idx lg] [root filename] [H1 H2]. unfold FileManager.index_file. simpl.
  simpl in H1, H2. destruct (FS.read _ _); simpl; [done|]. split.
  - apply Forall_app; split; [done|]. by constructor.
  - rewrite filter_app, H2. done.
Qed.


End DryRun.





(** ** The reference index (C2) *)

Section Index.

Context `{!Hashlib}.

Lemma index_fold_lookup (fs : node) (l : list (path * string)) (idx : gmap string string)
    (log : list log_line) (d : string) :
  (foldl (fun st '(root, filename) => FileManager.index_file fs st root filename) (idx, log) l).1
    !! d
  = match last_seen d (omap (fun '(root, filename) =>
                               match FS.read fs (root ++ [filename]) with
                               | Ok data => Some (md5 data, filename)
                               | Raise _ => None
                               end) l) with
    | Some later => Some later
    | None => idx !! d
    end.
Proof.
  revert idx log. induction l as [|[root filename] l IH]; intros idx log; simpl; [done|].
  unfold FileManager.index_file at 2. simpl.
  destruct (FS.read fs (root ++ [filename])) as [data|e]; simpl; rewrite IH; [|done].
  destruct (last_seen d _); [done|].
  case_decide; subst; [apply lookup_insert_eq | by apply lookup_insert_ne].
Qed.

Lemma index_fold_log (fs : node) (l : list (path * string)) (idx : gmap string string)
    (log : list log_line) :
  ∃ errors,
    (foldl (fun st '(root, filename) => FileManager.index_file fs st root filename) (idx, log) l).2
      = log ++ errors ∧
    Forall (fun line => is_read_error line = true) errors.
Proof.
  revert idx log. induction l as [|[root filename] l IH]; intros idx log; simpl.
  - exists []. by rewrite app_nil_r.
  - unfold FileManager.index_file at 2. simpl.
    destruct (FS.read fs (root ++ [filename])) as [data|e]; simpl; [apply IH|].
    destruct (IH idx (log ++ [LogReadError (root ++ [filename]) e])) as (errors & -> & Herr).
    exists (LogReadError (root ++ [filename]) e :: errors).
    split; [by rewrite <- app_assoc | by constructor].
Qed.

Lemma build_index_lookup (fs : node) (reference_dir : path) (log : list log_line)
    (d : string) :
  (FileManager.build_index fs reference_dir log).1 !! d
    = last_seen d (reference_files fs reference_dir).
Proof.
  unfold FileManager.build_index.
  rewrite (walk_loop_flat (FileManager.index_file fs)).
  rewrite index_fold_lookup. unfold reference_files.
  destruct (last_seen d _); [done|apply lookup_empty].
Qed.

(** C2, as the code has it. The index maps a digest to the filename of the
    last reference file, in walk order, that has this digest: the assignment
    [reference_hashes[file_hash] = filename] replaces an earlier filename.
    The only lines the indexing adds to the log are read errors. *)
Theorem index_last_seen_wins (fs : node) (reference_dir : path) (log : list log_line)
    (d : string) :
  (FileManager.build_index fs reference_dir log).1 !! d
    = last_seen d (reference_files fs reference_dir) ∧
  ∃ errors,
    (FileManager.build_index fs reference_dir log).2 = log ++ errors ∧
    Forall (fun line => is_read_error line = true) errors.
Proof.
  split; [apply build_index_lookup|].
  unfold FileManager.build_index.
  rewrite (walk_loop_flat (FileManager.index_file fs)). apply index_fold_log.
Qed.

End Index.

Lemma last_seen_None (d : string) (l : list (string * string)) :
  last_seen d l = None ↔ d ∉ l.*1.
Proof.
  induction l as [|[d' f'] l IH]; simpl.
  - split; [intros _; apply not_elem_of_nil | done].
  - rewrite not_elem_of_cons, <- IH.
    destruct (last_seen d l); [by split; [|intros [_ ?]]|].
    case_decide; subst; [by split; [|intros [? _]] | by split].
Qed.

Lemma last_seen_app (d : string) (l1 l2 : list (string * string)) :
  last_seen d (l1 ++ l2)
  = match last_seen d l2 with Some later => Some later | None => last_seen d l1 end.
Proof.
  induction l1 as [|[d' f'] l1 IH]; simpl; [by destruct (last_seen d l2)|].
  rewrite IH. by destruct (last_seen d l2).
Qed.

(** [last_seen] finds the last file of the list that has the digest. *)
Lemma last_seen_Some (d filename : string) (l : list (string * string)) :
  last_seen d l = Some filename ↔
  ∃ l1 l2, l = l1 ++ (d, filename) :: l2 ∧ d ∉ l2.*1.
Proof.
  split.
  - revert filename. induction l as [|[d' f'] l IH]; intros filename; simpl; [done|].
    destruct (last_seen d l) as [later|] eqn:Hlater.
    + intros [= <-]. destruct (IH later eq_refl) as (l1 & l2 & -> & Hnot).
      by exists ((d', f') :: l1), l2.
    + case_decide; [|done]. intros [= <-]. subst d'.
      exists [], l. split; [done|]. by apply last_seen_None.
  - intros (l1 & l2 & -> & Hnot). rewrite last_seen_app. simpl.
    apply last_seen_None in Hnot. rewrite Hnot. by rewrite decide_True.
Qed.

(** C2 as stated fails: of two reference files with equal content, the
    first seen is [a.txt] and the index holds [b.txt]. *)
Lemma first_seen_is_replaced :
  let fs := Dir [("ref", Dir [("a.txt", File (Some [])); ("b.txt", File (Some []))])] in
  reference_files fs ["ref"] = [("0", "a.txt"); ("0", "b.txt")] ∧
  first_seen "0" (reference_files fs ["ref"]) = Some "a.txt" ∧
  (FileManager.build_index fs ["ref"] []).1 !! "0" = Some "b.txt" ∧
  (FileManager.build_index fs ["ref"] []).1 !! "0" ≠ first_seen "0" (reference_files fs ["ref"]).
Proof. by vm_compute. Qed.

(** ** The frame extractor in directory mode (C3) *)

(** C3, the code's defect. For every directory [input_path], the call with
    [is_single_file = False] reads the name [input_directory], which is bound
    nowhere, and raises [NameError]: nothing is searched, saved or returned. *)
Theorem extract_directory_mode_raises `{!Pillow} (fs : node)
    (input_path output_base_directory : path) :
  FS.isdir fs input_path = true →
  ImageProcessor.extract_gif_frames fs input_path output_base_directory false
    = Raise (NameError "input_directory").
Proof. intros Hdir. unfold ImageProcessor.extract_gif_frames. by rewrite Hdir. Qed.

Lemma extract_directory_mode_raises_example :
  FS.isdir (Dir [("gifs", Dir [("a.gif", File (Some []))])]) ["gifs"] = true ∧
  ImageProcessor.extract_gif_frames (Dir [("gifs", Dir [("a.gif", File (Some []))])])
    ["gifs"] ["out"] false = Raise (NameError "input_directory").
Proof.
  split; [done|].
  by apply (extract_directory_mode_raises (Dir [("gifs", Dir [("a.gif", File (Some []))])])).
Defined.

(** In single-file mode the same file yields its frames. *)
Example extract_single_file_example :
  ImageProcessor.total_frames_extracted <$>
    match ImageProcessor.extract_gif_frames
            (Dir [("gifs", Dir [("a.gif", File (Some [Byte.x47; Byte.x49]))])])
            ["gifs"; "a.gif"] ["out"] true with
    | Ok st => Some st
    | Raise _ => None
    end = Some 2.
Proof. by vm_compute. Qed.

(** ** Return values (C4) *)

Lemma py_log_shape (log : list log_line) : has_shape (SListOf SStr) (py_log log) = true.
Proof. unfold py_log. simpl. induction log; simpl; [done|]. done. Qed.

(** C4, as the code has it. Each operation returns a value of its own
    shape: the sorter a pair of counts, the duplicate scan two counts and the
    log lines, the pruner one count and the log lines, the transcoder and the
    frame extractor one count. *)
Theorem returned_has_own_shape `{!Hashlib} `{!Pillow} (op : operation) (fs : node) :
  match returned op fs with
  | Ok v => has_shape (return_shape op) v = true
  | Raise _ => True
  end.
Proof.
  destruct op; simpl.
  - destruct (FileManager.sort_files _ _ _); simpl; done.
  - rewrite ?andb_true_r. apply py_log_shape.
  - rewrite ?andb_true_r. apply py_log_shape.
  - destruct (ImageProcessor.batch_process_images _ _ _ _ _ _); simpl; done.
  - destruct (ImageProcessor.extract_gif_frames _ _ _ _); simpl; done.
Qed.

(** C4 as stated fails: sorting an empty folder returns the pair [(0, 0)],
    which has no log lines. *)
Lemma sort_returns_no_log :
  returned (Sort [] "jpg") (Dir []) = Ok (PyTuple [PyInt 0; PyInt 0]) ∧
  has_shape operation_result (PyTuple [PyInt 0; PyInt 0]) = false.
Proof. by vm_compute. Qed.

(** ** The tree: induction, listings, updates *)

Lemma node_ind' (P : node → Prop) :
  (∀ data, P (File data)) →
  (∀ es, Forall (fun e => P e.2) es → P (Dir es)) →
  ∀ n, P n.
Proof.
  intros Hfile Hdir. fix IH 1. intros [data|es]; [apply Hfile|].
  apply Hdir. induction es as [|[name c] es IHes]; constructor; [apply IH|apply IHes].
Qed.

Lemma walk_Dir (topdown : bool) (top : path) (es : list (string * node)) :
  FS.walk topdown top (Dir es)
  = if topdown
    then (top, FS.dirnames es, FS.filenames es) :: walk_below topdown top es
    else walk_below topdown top es ++ [(top, FS.dirnames es, FS.filenames es)].
Proof.
  assert ((fix walk_entries (l : list (string * node)) :=
             match l with
             | [] => []
             | (name, c) :: l' => FS.walk topdown (top ++ [name]) c ++ walk_entries l'
             end) es = walk_below topdown top es) as Hbelow.
  { unfold walk_below. induction es as [|[name c] es IH]; simpl; [done|]. by rewrite IH. }
  simpl. by rewrite Hbelow.
Qed.

Lemma elem_of_walk_below (topdown : bool) (top : path) (es : list (string * node))
    (t : path * list string * list string) :
  t ∈ walk_below topdown top es ↔
  ∃ name c, (name, c) ∈ es ∧ t ∈ FS.walk topdown (top ++ [name]) c.
Proof.
  unfold walk_below. rewrite list_elem_of_bind. split.
  - intros ([name c] & Ht & Hin). eauto.
  - intros (name & c & Hin & Ht). by exists (name, c).
Qed.

Lemma elem_of_walk_Dir (topdown : bool) (top : path) (es : list (string * node))
    (t : path * list string * list string) :
  t ∈ FS.walk topdown top (Dir es) ↔
  t = (top, FS.dirnames es, FS.filenames es) ∨ t ∈ walk_below topdown top es.
Proof.
  rewrite walk_Dir. destruct topdown.
  - apply elem_of_cons.
  - rewrite elem_of_app, list_elem_of_singleton. tauto.
Qed.

(** Every directory that resolves from the top of a walk is yielded. *)
Lemma walk_complete (topdown : bool) (rel : path) :
  ∀ (n : node) (top : path) (es : list (string * node)),
    FS.lookup_path n rel = Some (Dir es) →
    (top ++ rel, FS.dirnames es, FS.filenames es) ∈ FS.walk topdown top n.
Proof.
  induction rel as [|d rel IH]; intros n top es Hn; simpl in Hn.
  - simplify_eq. rewrite app_nil_r. apply elem_of_walk_Dir. by left.
  - destruct n as [?|es0]; [done|].
    destruct (FS.assoc d es0) as [c|] eqn:Hc; [|done].
    apply elem_of_walk_Dir. right. apply elem_of_walk_below.
    exists d, c. split; [by apply assoc_Some_elem|].
    replace (top ++ d :: rel) with ((top ++ [d]) ++ rel) by by rewrite <- app_assoc.
    by apply IH.
Qed.

(** Every directory a walk yields lies under its top. *)
Lemma walk_under_top (topdown : bool) (n : node) :
  ∀ (top : path) (t : path * list string * list string),
    t ∈ FS.walk topdown top n → ∃ rel, t.1.1 = top ++ rel.
Proof.
  induction n as [data|es IH] using node_ind'; intros top t Ht.
  - by apply elem_of_nil in Ht.
  - apply elem_of_walk_Dir in Ht as [->|Ht].
    + exists []. by rewrite app_nil_r.
    + apply elem_of_walk_below in Ht as (name & c & Hin & Ht).
      rewrite Forall_forall in IH.
      destruct (IH _ Hin _ _ Ht) as [rel Hrel]. exists (name :: rel).
      by rewrite Hrel, <- app_assoc.
Qed.

Lemma assoc_File_filenames (name : string) (es : list (string * node))
    (data : option (list Byte.byte)) :
  FS.assoc name es = Some (File data) → name ∈ FS.filenames es.
Proof.
  intros Hassoc%assoc_Some_elem. unfold FS.filenames.
  apply list_elem_of_fmap. exists (name, File data). split; [done|].
  by apply list_elem_of_filter.
Qed.

(** Every file that resolves under the top of a walk is visited by the loops. *)
Lemma walk_files_complete (fs : node) (top rel : path) (name : string)
    (data : option (list Byte.byte)) :
  FS.lookup_path fs (top ++ rel ++ [name]) = Some (File data) →
  (top ++ rel, name) ∈ walk_files (FS.os_walk fs top true).
Proof.
  rewrite lookup_path_app. unfold FS.os_walk.
  destruct (FS.lookup_path fs top) as [n|]; [simpl|done].
  rewrite lookup_path_app.
  destruct (FS.lookup_path n rel) as [[?|es]|] eqn:Hrel; simpl; try done.
  destruct (FS.assoc name es) as [c|] eqn:Hc; [|done]. intros [= ->].
  unfold walk_files. apply list_elem_of_bind.
  exists (top ++ rel, FS.dirnames es, FS.filenames es). split.
  - apply list_elem_of_fmap. exists name. split; [done|].
    by eapply assoc_File_filenames.
  - by apply walk_complete.
Qed.

Lemma walk_files_under_top (fs : node) (top root : path) (name : string) :
  (root, name) ∈ walk_files (FS.os_walk fs top true) → ∃ rel, root = top ++ rel.
Proof.
  unfold walk_files, FS.os_walk. rewrite list_elem_of_bind.
  intros ([[root' dirs] files] & Hin & Ht).
  apply list_elem_of_fmap in Hin as (f & [= -> ->] & _).
  destruct (FS.lookup_path fs top) as [n|]; [|by apply elem_of_nil in Ht].
  by destruct (walk_under_top _ _ _ _ Ht) as [rel Hrel]; exists rel.
Qed.

(** *** Listings *)

Lemma assoc_remove_entry (name d : string) (es : list (string * node)) :
  FS.assoc d (FS.remove_entry name es) = if decide (d = name) then None else FS.assoc d es.
Proof.
  unfold FS.remove_entry. induction es as [|[k c] es IH]; simpl; [by case_decide|].
  destruct (decide (k = name)) as [->|Hk].
  - rewrite filter_cons_False by (simpl; intros ?; done). rewrite IH.
    repeat case_decide; simplify_eq; done.
  - rewrite filter_cons_True by done. simpl. rewrite IH.
    repeat case_decide; simplify_eq; done.
Qed.

Lemma assoc_set_entry (name d : string) (c : node) (es : list (string * node)) :
  FS.assoc d (FS.set_entry name c es)
  = if decide (d = name) then (fun _ => c) <$> FS.assoc name es else FS.assoc d es.
Proof.
  induction es as [|[k c0] es IH]; simpl; [by case_decide|].
  destruct (decide (k = name)) as [->|Hk]; simpl.
  - repeat case_decide; simplify_eq; done.
  - rewrite IH. repeat case_decide; simplify_eq; done.
Qed.

Lemma assoc_app (d : string) (es1 es2 : list (string * node)) :
  FS.assoc d (es1 ++ es2)
  = match FS.assoc d es1 with Some c => Some c | None => FS.assoc d es2 end.
Proof.
  induction es1 as [|[k c] es1 IH]; simpl; [done|]. by case_decide.
Qed.

Lemma assoc_put_entry (name d : string) (c : node) (es : list (string * node)) :
  FS.assoc d (FS.put_entry name c es) = if decide (d = name) then Some c else FS.assoc d es.
Proof.
  unfold FS.put_entry. destruct (FS.assoc name es) as [c0|] eqn:Hname.
  - rewrite assoc_set_entry, Hname. by case_decide.
  - rewrite assoc_app. simpl. case_decide; subst.
    + by rewrite Hname, decide_True.
    + rewrite decide_False by done. by destruct (FS.assoc d es).
Qed.

Lemma set_entry_same (name : string) (c : node) (es : list (string * node)) :
  FS.assoc name es = Some c → FS.set_entry name c es = es.
Proof.
  induction es as [|[k c0] es IH]; simpl; [done|].
  case_decide; [by intros [= ->] | intros ?; f_equal; auto].
Qed.

(** *** Resolution after an update *)

Lemma update_nil_File (f : list (string * node) → list (string * node)) (p : path)
    (data : option (list Byte.byte)) :
  FS.update p f (File data) = File data.
Proof. by destruct p. Qed.

(** At or below the updated directory. *)
Lemma lookup_update_below (f : list (string * node) → list (string * node)) (p : path) :
  ∀ (fs : node) (rest : path),
    FS.lookup_path (FS.update p f fs) (p ++ rest)
    = FS.lookup_path fs p ≫= fun n => FS.lookup_path (FS.update [] f n) rest.
Proof.
  induction p as [|d p IH]; intros fs rest; [done|].
  destruct fs as [data|es]; [done|]. simpl.
  destruct (FS.assoc d es) as [c|] eqn:Hc; simpl; [|by rewrite Hc].
  rewrite assoc_set_entry, decide_True, Hc by done. simpl. apply IH.
Qed.

(** Above the updated directory. *)
Lemma lookup_update_above (f : list (string * node) → list (string * node)) (q : path) :
  ∀ (fs : node) (rest : path),
    FS.lookup_path (FS.update (q ++ rest) f fs) q = FS.update rest f <$> FS.lookup_path fs q.
Proof.
  induction q as [|d q IH]; intros fs rest; [done|].
  destruct fs as [data|es]; [done|]. simpl.
  destruct (FS.assoc d es) as [c|] eqn:Hc; simpl; [|by rewrite Hc].
  rewrite assoc_set_entry, decide_True, Hc by done. simpl. apply IH.
Qed.

(** Beside the updated directory. *)
Lemma lookup_update_other (f : list (string * node) → list (string * node)) (p : path) :
  ∀ (fs : node) (q : path),
    ¬ p `prefix_of` q → ¬ q `prefix_of` p →
    FS.lookup_path (FS.update p f fs) q = FS.lookup_path fs q.
Proof.
  induction p as [|d p IH]; intros fs q Hpq Hqp.
  - exfalso. apply Hpq, prefix_nil.
  - destruct q as [|d' q]; [exfalso; apply Hqp, prefix_nil|].
    destruct fs as [data|es]; [done|]. simpl.
    destruct (FS.assoc d es) as [c|] eqn:Hc; [|done]. simpl.
    rewrite assoc_set_entry. case_decide as Hd.
    + subst d'. rewrite Hc. simpl. apply IH.
      * intros Hp. apply Hpq. by apply prefix_cons.
      * intros Hq. apply Hqp. by apply prefix_cons.
    + done.
Qed.

(** *** Removing an entry *)

Lemma split_last_snoc (parent : path) (name : string) :
  FS.split_last (parent ++ [name]) = Some (parent, name).
Proof. unfold FS.split_last. by rewrite reverse_snoc, reverse_involutive. Qed.

Lemma split_last_Some (p parent : path) (name : string) :
  FS.split_last p = Some (parent, name) → p = parent ++ [name].
Proof.
  unfold FS.split_last. destruct (reverse p) as [|x r] eqn:Hrev; [done|].
  intros [= <- <-]. apply (inj reverse). by rewrite reverse_snoc, reverse_involutive.
Qed.

Lemma prefix_snoc_inv (parent q : path) (name : string) :
  (parent ++ [name]) `prefix_of` q ↔ ∃ rest, q = parent ++ name :: rest.
Proof.
  split; intros [rest ->]; exists rest; by rewrite <- app_assoc.
Qed.

(** Resolution after an entry is removed from the directory at [parent],
    anywhere but above that directory. *)
Lemma lookup_remove_entry (fs : node) (parent q : path) (name : string)
    (es : list (string * node)) :
  FS.lookup_path fs parent = Some (Dir es) →
  ¬ q `prefix_of` parent →
  FS.lookup_path (FS.update parent (FS.remove_entry name) fs) q
  = if decide ((parent ++ [name]) `prefix_of` q) then None else FS.lookup_path fs q.
Proof.
  intros Hparent Hq. destruct (decide (parent `prefix_of` q)) as [[rest ->]|Hnot].
  - rewrite lookup_update_below, lookup_path_app, Hparent. simpl.
    destruct rest as [|x rest].
    { exfalso. apply Hq. by rewrite app_nil_r. }
    simpl. rewrite assoc_remove_entry. case_decide as Hx.
    + subst x. rewrite decide_True; [done|]. apply prefix_snoc_inv. by exists rest.
    + rewrite decide_False; [done|].
      intros [rest' Heq]%prefix_snoc_inv. apply app_inv_head in Heq. by simplify_eq.
  - rewrite lookup_update_other by done. rewrite decide_False; [done|].
    intros [rest ->]. apply Hnot. exists ([name] ++ rest). by rewrite <- app_assoc.
Qed.

Lemma lookup_File_not_above (fs : node) (q parent : path) (n : option (list Byte.byte))
    (es : list (string * node)) :
  FS.lookup_path fs q = Some (File n) →
  FS.lookup_path fs parent = Some (Dir es) →
  ¬ q `prefix_of` parent.
Proof.
  intros Hq Hparent [rest ->]. rewrite lookup_path_app, Hq in Hparent.
  by destruct rest.
Qed.

Lemma lookup_update_is_dir (f : list (string * node) → list (string * node)) (p q : path)
    (fs : node) :
  (∃ es, FS.lookup_path (FS.update p f fs) q = Some (Dir es)) →
  q `prefix_of` p →
  ∃ es, FS.lookup_path fs q = Some (Dir es).
Proof.
  intros [es Hes] [rest ->]. rewrite lookup_update_above in Hes.
  destruct (FS.lookup_path fs q) as [[?|es0]|]; simplify_eq/=; [|by eauto].
  by rewrite update_nil_File in Hes.
Qed.

Section Remove.

Variables (fs fs' : node) (p : path).
Hypothesis Hremove : FS.remove fs p = Ok fs'.

Lemma remove_inv :
  ∃ parent name data es,
    p = parent ++ [name] ∧ FS.lookup_path fs p = Some (File data) ∧
    FS.lookup_path fs parent = Some (Dir es) ∧
    fs' = FS.update parent (FS.remove_entry name) fs.
Proof using Hremove.
  unfold FS.remove in Hremove.
  destruct (FS.split_last p) as [[parent name]|] eqn:Hsplit; [|done].
  apply split_last_Some in Hsplit as ->.
  destruct (FS.lookup_path fs (parent ++ [name])) as [[data|?]|] eqn:Hp; simplify_eq.
  exists parent, name, data.
  rewrite lookup_path_app in Hp.
  destruct (FS.lookup_path fs parent) as [[?|es]|]; simplify_eq/=. by exists es.
Qed.

(** A removal creates no file and changes none. *)
Lemma remove_no_new_file (q : path) (n : option (list Byte.byte)) :
  FS.lookup_path fs' q = Some (File n) → FS.lookup_path fs q = Some (File n).
Proof using Hremove.
  destruct remove_inv as (parent & name & data & es & -> & Hp & Hparent & ->).
  intros Hq. destruct (decide (q `prefix_of` parent)) as [Habove|Habove].
  - destruct Habove as [rest ->]. rewrite lookup_update_above in Hq.
    destruct (FS.lookup_path fs q) as [[?|es0]|] eqn:Hq0; simplify_eq/=.
    + rewrite update_nil_File in Hq. by simplify_eq.
    + destruct rest; simpl in Hq; [done|]. by destruct (FS.assoc _ _).
  - rewrite (lookup_remove_entry _ _ _ _ es) in Hq by done. by case_decide.
Qed.

(** A removal keeps every other file. *)
Lemma remove_keeps_others (q : path) (n : option (list Byte.byte)) :
  FS.lookup_path fs q = Some (File n) → q ≠ p → FS.lookup_path fs' q = Some (File n).
Proof using Hremove.
  destruct remove_inv as (parent & name & data & es & -> & Hp & Hparent & ->).
  intros Hq Hne.
  rewrite (lookup_remove_entry _ _ _ _ es);
    [|done|by eapply lookup_File_not_above].
  rewrite decide_False; [done|].
  intros [rest ->]%prefix_snoc_inv.
  replace (parent ++ name :: rest) with ((parent ++ [name]) ++ rest) in *
    by by rewrite <- app_assoc.
  rewrite lookup_path_app, Hp in Hq. destruct rest; [|done].
  by rewrite app_nil_r in Hne.
Qed.

End Remove.

(** ** The duplicate scan (C5, C10) *)

Section Scan.

Context `{!Hashlib}.
Variables (fs0 : node) (idx : gmap string string) (dry_run : bool).

Lemma read_Ok (fs : node) (q : path) (data : list Byte.byte) :
  FS.read fs q = Ok data ↔ FS.lookup_path fs q = Some (File (Some data)).
Proof.
  unfold FS.read. destruct (FS.lookup_path fs q) as [[[?|]|?]|]; split; intros; by simplify_eq.
Qed.

(** One file of the check tree: the invariant is kept, the log only grows,
    and the file is reported if its digest is in the index. *)
Lemma check_file_step (st : FileManager.dup_state) (root : path) (filename : string) :
  let st' := FileManager.check_file idx dry_run st root filename in
  scan_inv fs0 idx st →
  scan_inv fs0 idx st' ∧
  FileManager.log_messages st `prefix_of` FileManager.log_messages st' ∧
  (∀ data r, FS.lookup_path fs0 (root ++ [filename]) = Some (File (Some data)) →
             idx !! md5 data = Some r →
             LogDuplicateFound (root ++ [filename]) r ∈ FileManager.log_messages st').
Proof.
  intros st' (Ha & Hb & Hc & Hd & He).
  assert (∀ data r, FS.lookup_path fs0 (root ++ [filename]) = Some (File (Some data)) →
            idx !! md5 data = Some r →
            FS.read (FileManager.dup_fs st) (root ++ [filename]) ≠ Ok data →
            LogDuplicateFound (root ++ [filename]) r ∈ FileManager.log_messages st) as Hgone.
  { intros data r H0 Hidx Hread. destruct (Hb _ _ H0) as [Hstill|Hdel].
    - exfalso. apply Hread. by apply read_Ok.
    - destruct (Hd _ Hdel) as [r' Hr']. destruct (Hc _ _ Hr') as (data' & H0' & Hidx').
      by simplify_eq. }
  subst st'. unfold FileManager.check_file.
  destruct (FS.read (FileManager.dup_fs st) (root ++ [filename])) as [data|e] eqn:Hread.
  - pose proof (Ha _ _ (proj1 (read_Ok _ _ _) Hread)) as H0.
    destruct (idx !! md5 data) as [r|] eqn:Hidx.
    + assert (∀ q r', LogDuplicateFound q r' ∈
                (FileManager.log_messages st ++ [LogDuplicateFound (root ++ [filename]) r]) →
                ∃ data', FS.lookup_path fs0 q = Some (File (Some data')) ∧
                         idx !! md5 data' = Some r') as Hc'.
      { intros q r' [Hin|Hin%list_elem_of_singleton]%elem_of_app; [by apply Hc|].
        simplify_eq. by exists data. }
      destruct dry_run.
      * split; [|split].
        -- repeat split; simpl; [done| |done| |lia].
           ++ intros q n Hq. destruct (Hb _ _ Hq); [by left|right]. set_solver.
           ++ intros q [Hin|Hin%list_elem_of_singleton]%elem_of_app; [|done].
              destruct (Hd _ Hin) as [r' ?]. exists r'. set_solver.
        -- by apply prefix_app_r.
        -- intros data' r' H0' Hidx'. simplify_eq. simpl. set_solver.
      * destruct (FS.remove (FileManager.dup_fs st) (root ++ [filename])) as [fs'|e]
          eqn:Hrm.
        -- split; [|split].
           ++ repeat split; simpl; [| | | |lia].
              ** intros q n Hq. apply Ha. by eapply remove_no_new_file.
              ** intros q n Hq. destruct (Hb _ _ Hq) as [Hstill|Hdel]; [|right; set_solver].
                 destruct (decide (q = root ++ [filename])) as [->|Hne]; [right; set_solver|].
                 left. by eapply remove_keeps_others.
              ** intros q r' [Hin|Hin%list_elem_of_singleton]%elem_of_app; [|done].
                 by apply Hc'.
              ** intros q [[Hin|Hin%list_elem_of_singleton]%elem_of_app
                          |Hin%list_elem_of_singleton]%elem_of_app; simplify_eq.
                 --- destruct (Hd _ Hin) as [r' ?]. exists r'. set_solver.
                 --- exists r. set_solver.
           ++ rewrite <- app_assoc. by apply prefix_app_r.
           ++ intros data' r' H0' Hidx'. simplify_eq. simpl. set_solver.
        -- split; [|split].
           ++ repeat split; simpl; [done| | | |lia].
              ** intros q n Hq. destruct (Hb _ _ Hq); [by left|right]. set_solver.
              ** intros q r' [Hin|Hin%list_elem_of_singleton]%elem_of_app; [|done].
                 by apply Hc'.
              ** intros q [[Hin|Hin%list_elem_of_singleton]%elem_of_app
                          |Hin%list_elem_of_singleton]%elem_of_app; simplify_eq.
                 destruct (Hd _ Hin) as [r' ?]. exists r'. set_solver.
           ++ rewrite <- app_assoc. by apply prefix_app_r.
           ++ intros data' r' H0' Hidx'. simplify_eq. simpl. set_solver.
    + split; [done|]. split; [done|].
      intros data' r' H0' Hidx'. simplify_eq.
  - split; [|split].
    + repeat split; simpl; [done| | | |done].
      * intros q n Hq. destruct (Hb _ _ Hq); [by left|right]. set_solver.
      * intros q r' [Hin|Hin%list_elem_of_singleton]%elem_of_app; [by apply Hc|done].
      * intros q [Hin|Hin%list_elem_of_singleton]%elem_of_app; [|done].
        destruct (Hd _ Hin) as [r' ?]. exists r'. set_solver.
    + by apply prefix_app_r.
    + intros data r H0 Hidx. simpl. apply elem_of_app. left.
      by apply (Hgone data r H0 Hidx).
Qed.

Lemma check_files_steps (l : list (path * string)) :
  ∀ st,
    let st' := foldl (fun st '(root, filename) =>
                        FileManager.check_file idx dry_run st root filename) st l in
    scan_inv fs0 idx st →
    scan_inv fs0 idx st' ∧
    FileManager.log_messages st `prefix_of` FileManager.log_messages st' ∧
    (∀ root filename data r,
       (root, filename) ∈ l →
       FS.lookup_path fs0 (root ++ [filename]) = Some (File (Some data)) →
       idx !! md5 data = Some r →
       LogDuplicateFound (root ++ [filename]) r ∈ FileManager.log_messages st').
Proof.
  induction l as [|[root filename] l IH]; intros st st' Hinv.
  - split; [done|]. split; [done|]. intros ???? Hin. by apply elem_of_nil in Hin.
  - subst st'. simpl.
    destruct (check_file_step st root filename Hinv) as (Hinv1 & Hpre1 & Hrep1).
    destruct (IH _ Hinv1) as (Hinv2 & Hpre2 & Hrep2).
    split; [done|]. split; [by etrans|].
    intros root' filename' data r [Heq|Hin]%elem_of_cons H0 Hidx.
    + simplify_eq. eapply elem_of_prefix; [|done]. by eapply Hrep1.
    + by eapply Hrep2.
Qed.

End Scan.

Section ScanTheorems.

Context `{!Hashlib}.

(** A digest is in the index exactly when a readable file of the reference
    tree has it. *)
Lemma index_hit_iff (fs : node) (reference_dir : path) (log : list log_line) (d : string) :
  is_Some ((FileManager.build_index fs reference_dir log).1 !! d) ↔
  ∃ rrel rname rdata,
    FS.lookup_path fs (reference_dir ++ rrel ++ [rname]) = Some (File (Some rdata)) ∧
    md5 rdata = d.
Proof.
  rewrite build_index_lookup.
  assert (is_Some (last_seen d (reference_files fs reference_dir)) ↔
          d ∈ (reference_files fs reference_dir).*1) as ->.
  { rewrite <- not_eq_None_Some, last_seen_None.
    split; [apply dec_stable | by intros ? ?]. }
  unfold reference_files. rewrite list_elem_of_fmap. split.
  - intros ([d' f] & -> & ([root filename] & Hin & Hread)%list_elem_of_omap).
    destruct (FS.read fs (root ++ [filename])) as [data|] eqn:Hr; simplify_eq/=.
    apply read_Ok in Hr. destruct (walk_files_under_top _ _ _ _ Hin) as [rrel ->].
    exists rrel, f, data. by rewrite app_assoc.
  - intros (rrel & rname & rdata & Hlook & <-).
    exists (md5 rdata, rname). split; [done|]. apply list_elem_of_omap.
    exists (reference_dir ++ rrel, rname). split; [by eapply walk_files_complete|].
    rewrite app_assoc in Hlook. apply read_Ok in Hlook. by rewrite Hlook.
Qed.

(** The whole scan: the invariant holds at the end, and every file the walk
    of the check tree visits is reported if its digest is in the index. *)
Lemma find_duplicates_scan (fs : node) (reference_dir check_dir : path) (dry_run : bool) :
  let idx := (FileManager.build_index fs reference_dir
                [LogStartScan; LogIndexing reference_dir]).1 in
  let st := FileManager.find_duplicates fs reference_dir check_dir dry_run in
  scan_inv fs idx st ∧
  (∀ root filename data r,
     (root, filename) ∈ walk_files (FS.os_walk fs check_dir true) →
     FS.lookup_path fs (root ++ [filename]) = Some (File (Some data)) →
     idx !! md5 data = Some r →
     LogDuplicateFound (root ++ [filename]) r ∈ FileManager.log_messages st).
Proof.
  intros idx st. subst idx st. unfold FileManager.find_duplicates.
  destruct (build_index_no_deletion fs reference_dir [LogStartScan; LogIndexing reference_dir])
    as [Hdel Hdup]; [by repeat constructor|done|].
  destruct (FileManager.build_index _ _ _) as [idx log]. simpl in *.
  unfold FileManager.check_all.
  rewrite (walk_loop_flat (FileManager.check_file idx dry_run)).
  set (st0 := FileManager.DupState fs 0 0 _).
  destruct (check_files_steps fs idx dry_run (walk_files (FS.os_walk fs check_dir true)) st0)
    as (Hinv & _ & Hrep); [|done].
  assert (∀ line, line ∈ FileManager.log_messages st0 →
            is_deletion line = false ∧ is_duplicate_found line = false) as Hlog0.
  { subst st0. simpl. intros line [Hin|Hin]%elem_of_app.
    - split; [by eapply (proj1 (Forall_forall _ _) Hdel)|].
      destruct (is_duplicate_found line) eqn:Hl; [|done].
      assert (line ∈ filter (fun l => is_duplicate_found l = true) log) as Hf
        by by apply list_elem_of_filter.
      rewrite Hdup in Hf. by apply elem_of_nil in Hf.
    - apply elem_of_cons in Hin as [->|Hin%list_elem_of_singleton]; [done|by subst]. }
  repeat split; simpl; [done|by left| | |done].
  - intros q r Hin. by destruct (Hlog0 _ Hin).
  - intros q Hin. by destruct (Hlog0 _ Hin).
Qed.

(** C5. A readable file of the check tree is reported as a duplicate exactly
    when some readable file of the reference tree has the same digest; the
    names of the two files play no part. A file whose digest no reference
    file has is still in place, unchanged, after the scan, in both modes. *)
Theorem duplicate_reported_iff (fs : node) (reference_dir check_dir : path)
    (dry_run : bool) (rel : path) (name : string) (data : list Byte.byte) :
  let filepath := check_dir ++ rel ++ [name] in
  let st := FileManager.find_duplicates fs reference_dir check_dir dry_run in
  let matches_reference :=
    ∃ rrel rname rdata,
      FS.lookup_path fs (reference_dir ++ rrel ++ [rname]) = Some (File (Some rdata)) ∧
      md5 rdata = md5 data in
  FS.lookup_path fs filepath = Some (File (Some data)) →
  ((∃ r, LogDuplicateFound filepath r ∈ FileManager.log_messages st) ↔ matches_reference) ∧
  (¬ matches_reference →
   FS.lookup_path (FileManager.dup_fs st) filepath = Some (File (Some data))).
Proof.
  intros filepath st matches_reference Hfile.
  destruct (find_duplicates_scan fs reference_dir check_dir dry_run)
    as ((Ha & Hb & Hc & Hd & He) & Hrep).
  fold st in Ha, Hb, Hc, Hd, He, Hrep.
  pose proof (index_hit_iff fs reference_dir [LogStartScan; LogIndexing reference_dir]
                (md5 data)) as Hhit.
  fold matches_reference in Hhit.
  assert ((∃ r, LogDuplicateFound filepath r ∈ FileManager.log_messages st)
          ↔ matches_reference) as Hiff.
  { split.
    - intros [r Hr]. destruct (Hc _ _ Hr) as (data' & H0 & Hidx). simplify_eq.
      apply Hhit. by eexists.
    - intros [r Hidx]%Hhit. exists r.
      subst filepath. rewrite app_assoc.
      eapply Hrep; [|by rewrite <- app_assoc|done].
      by apply (walk_files_complete _ _ _ _ (Some data)). }
  split; [done|]. intros Hno.
  destruct (Hb _ _ Hfile) as [Hstill|Hdel]; [done|].
  exfalso. apply Hno, Hiff. by apply Hd.
Qed.

(** C10. In both modes the deleted count does not exceed the found count,
    and a file that the scan removes has content whose digest is in the
    reference index, that is, some readable reference file has this digest:
    every other file is still in place after the scan. *)
Theorem deleted_only_when_indexed (fs : node) (reference_dir check_dir : path)
    (dry_run : bool) :
  let st := FileManager.find_duplicates fs reference_dir check_dir dry_run in
  let reference_hashes :=
    (FileManager.build_index fs reference_dir [LogStartScan; LogIndexing reference_dir]).1 in
  FileManager.deleted_count st ≤ FileManager.found_count st ∧
  ∀ q content,
    FS.lookup_path fs q = Some (File content) →
    FS.lookup_path (FileManager.dup_fs st) q ≠ Some (File content) →
    ∃ data,
      content = Some data ∧ is_Some (reference_hashes !! md5 data) ∧
      ∃ rrel rname rdata,
        FS.lookup_path fs (reference_dir ++ rrel ++ [rname]) = Some (File (Some rdata)) ∧
        md5 rdata = md5 data.
Proof.
  intros st reference_hashes.
  destruct (find_duplicates_scan fs reference_dir check_dir dry_run)
    as ((Ha & Hb & Hc & Hd & He) & _).
  fold st in Ha, Hb, Hc, Hd, He. split; [done|].
  intros q content Hq Hgone.
  destruct (Hb _ _ Hq) as [Hstill|Hdel]; [done|].
  destruct (Hd _ Hdel) as [r Hr]. destruct (Hc _ _ Hr) as (data & H0 & Hidx).
  exists data. split; [by simplify_eq|].
  assert (is_Some (reference_hashes !! md5 data)) as Hsome by by eexists.
  split; [done|]. by apply index_hit_iff in Hsome.
Qed.

End ScanTheorems.

Lemma duplicate_reported_iff_witness :
  let fs := Dir [("ref", Dir [("a.txt", File (Some [Byte.x61]))]);
                 ("chk", Dir [("b.txt", File (Some [Byte.x62])); ("c.txt", File (Some []))])] in
  let st := FileManager.find_duplicates fs ["ref"] ["chk"] false in
  FS.lookup_path fs (["chk"] ++ [] ++ ["b.txt"]) = Some (File (Some [Byte.x62])) ∧
  ((∃ r, LogDuplicateFound (["chk"] ++ [] ++ ["b.txt"]) r ∈ FileManager.log_messages st) ↔
   (∃ rrel rname rdata,
      FS.lookup_path fs (["ref"] ++ rrel ++ [rname]) = Some (File (Some rdata)) ∧
      md5 rdata = md5 [Byte.x62])) ∧
  (¬ (∃ rrel rname rdata,
        FS.lookup_path fs (["ref"] ++ rrel ++ [rname]) = Some (File (Some rdata)) ∧
        md5 rdata = md5 [Byte.x62]) →
   FS.lookup_path (FileManager.dup_fs st) (["chk"] ++ [] ++ ["b.txt"])
     = Some (File (Some [Byte.x62]))).
Proof.
  split; [reflexivity|].
  apply (duplicate_reported_iff
           (Dir [("ref", Dir [("a.txt", File (Some [Byte.x61]))]);
                 ("chk", Dir [("b.txt", File (Some [Byte.x62])); ("c.txt", File (Some []))])])
           ["ref"] ["chk"] false [] "b.txt" [Byte.x62]).
  reflexivity.
Defined.

(** The scan of the example: [b.txt] has the digest of [a.txt] under another
    name and is deleted; [c.txt] has another digest and stays. *)
Example find_duplicates_example :
  let fs := Dir [("ref", Dir [("a.txt", File (Some [Byte.x61]))]);
                 ("chk", Dir [("b.txt", File (Some [Byte.x62])); ("c.txt", File (Some []))])] in
  let st := FileManager.find_duplicates fs ["ref"] ["chk"] false in
  FileManager.dup_fs st
    = Dir [("ref", Dir [("a.txt", File (Some [Byte.x61]))]);
           ("chk", Dir [("c.txt", File (Some []))])] ∧
  FileManager.found_count st = 1 ∧ FileManager.deleted_count st = 1 ∧
  FileManager.log_messages st
    = [LogStartScan; LogIndexing ["ref"]; LogIndexComplete 1; LogChecking ["chk"];
       LogDuplicateFound ["chk"; "b.txt"] "a.txt"; LogDeleted ["chk"; "b.txt"]].
Proof. by vm_compute. Qed.

(** ** The empty-folder pruner (C8) *)

Section Rmdir.

Variables (fs fs' : node) (p : path).
Hypothesis Hrmdir : FS.rmdir fs p = Ok fs'.

Lemma rmdir_inv :
  ∃ parent name es,
    p = parent ++ [name] ∧ FS.lookup_path fs p = Some (Dir []) ∧
    FS.lookup_path fs parent = Some (Dir es) ∧
    fs' = FS.update parent (FS.remove_entry name) fs.
Proof using Hrmdir.
  unfold FS.rmdir in Hrmdir.
  destruct (FS.split_last p) as [[parent name]|] eqn:Hsplit; [|done].
  apply split_last_Some in Hsplit as ->.
  destruct (FS.lookup_path fs (parent ++ [name])) as [[?|[|??]]|] eqn:Hp; simplify_eq.
  exists parent, name.
  rewrite lookup_path_app in Hp.
  destruct (FS.lookup_path fs parent) as [[?|es]|]; simplify_eq/=. by exists es.
Qed.

(** Nothing resolves under an empty folder. *)
Lemma rmdir_nothing_below (rest : path) :
  rest ≠ [] → FS.lookup_path fs (p ++ rest) = None.
Proof using Hrmdir.
  destruct rmdir_inv as (parent & name & es & -> & Hp & _ & _).
  intros Hrest. rewrite lookup_path_app, Hp. by destruct rest.
Qed.

(** Resolution after the folder is removed. *)
Lemma rmdir_lookup (q : path) :
  (∃ n, FS.lookup_path fs q = Some n) →
  ¬ q `prefix_of` p →
  FS.lookup_path fs' q = FS.lookup_path fs q.
Proof using Hrmdir.
  intros [n Hn] Hq.
  pose proof rmdir_nothing_below as Hbelow.
  destruct rmdir_inv as (parent & name & es & -> & Hp & Hparent & ->).
  rewrite (lookup_remove_entry _ _ _ _ es); [|done|].
  - rewrite decide_False; [done|]. intros [rest ->].
    destruct rest as [|x rest]; [apply Hq; by rewrite app_nil_r|].
    by rewrite Hbelow in Hn.
  - intros [rest ->]. apply Hq. exists (rest ++ [name]). by rewrite app_assoc.
Qed.

Lemma rmdir_gone : FS.lookup_path fs' p = None.
Proof using Hrmdir.
  destruct rmdir_inv as (parent & name & es & -> & Hp & Hparent & ->).
  rewrite (lookup_remove_entry _ _ _ _ es); [by rewrite decide_True|done|].
  intros [rest Heq]. apply (f_equal length) in Heq. rewrite !length_app in Heq.
  simpl in Heq. lia.
Qed.

(** A removal creates nothing. *)
Lemma rmdir_no_new (q : path) :
  FS.lookup_path fs q = None → FS.lookup_path fs' q = None.
Proof using Hrmdir.
  destruct rmdir_inv as (parent & name & es & -> & Hp & Hparent & ->).
  intros Hq. destruct (decide (q `prefix_of` parent)) as [[rest ->]|Hnot].
  - by rewrite lookup_update_above, Hq.
  - rewrite (lookup_remove_entry _ _ _ _ es) by done. by case_decide.
Qed.

(** Whether a path is a directory changes only at or below the removed folder. *)
Lemma rmdir_isdir (q : path) :
  ¬ p `prefix_of` q → FS.isdir fs' q = FS.isdir fs q.
Proof using Hrmdir.
  pose proof rmdir_inv as (parent & name & es & Hpeq & Hp & Hparent & Hfs').
  intros Hpq. unfold FS.isdir.
  destruct (decide (q `prefix_of` parent)) as [[rest Hrest]|Hnot].
  - rewrite Hfs', Hrest, lookup_update_above.
    destruct (FS.lookup_path fs q) as [[?|es0]|]; simpl;
      [by rewrite update_nil_File| |done].
    destruct rest; simpl; [done|]. by destruct (FS.assoc _ _).
  - rewrite Hfs', (lookup_remove_entry _ _ _ _ es) by done.
    rewrite decide_False; [done|]. by rewrite <- Hpeq.
Qed.

End Rmdir.

(** What one visit of the pruning loop does. *)
Lemma visit_folder_cases (target_dir : path) (dry_run : bool) (st : FileManager.prune_state)
    (dirpath : path) :
  let st' := FileManager.visit_folder target_dir dry_run st dirpath in
  (FileManager.prune_fs st' = FileManager.prune_fs st ∧
   FileManager.prune_count st ≤ FileManager.prune_count st' ∧
   ∃ lines, FileManager.prune_log st' = FileManager.prune_log st ++ lines ∧
            Forall (fun l => is_deletion l = false) lines) ∨
  (dry_run = false ∧ dirpath ≠ target_dir ∧
   ∃ fs', FS.rmdir (FileManager.prune_fs st) dirpath = Ok fs' ∧
          st' = FileManager.PruneState fs' (S (FileManager.prune_count st))
                  (FileManager.prune_log st ++ [LogDeletedEmpty dirpath])).
Proof.
  simpl. unfold FileManager.visit_folder.
  case_decide as Htarget.
  { left. repeat split; [lia|]. exists []. by rewrite app_nil_r. }
  destruct (FS.listdir _ _) as [[|??]|e].
  - destruct dry_run.
    + left. simpl. repeat split; [lia|]. eexists. split; [done|]. by repeat constructor.
    + destruct (FS.rmdir _ _) as [fs'|e] eqn:Hrm.
      * right. repeat split; [done|]. by exists fs'.
      * left. simpl. repeat split; [lia|]. eexists. split; [done|]. by repeat constructor.
  - left. repeat split; [lia|]. exists []. by rewrite app_nil_r.
  - left. simpl. repeat split; [lia|]. eexists. split; [done|]. by repeat constructor.
Qed.


Section Nested.

Variables (target_dir A : path) (b : string).
Hypothesis A_not_target : A ≠ target_dir.
Hypothesis A_not_root : A ≠ [].

Local Abbreviation visit := (FileManager.visit_folder target_dir false).




Lemma lookup_prefix_Some (fs : node) (q rest : path) (n : node) :
  FS.lookup_path fs (q ++ rest) = Some n → ∃ m, FS.lookup_path fs q = Some m.
Proof.
  rewrite lookup_path_app. destruct (FS.lookup_path fs q); [by eauto|done].
Qed.








End Nested.

(** The walk of a subtree is a segment of the walk of the tree. *)


Lemma walk_below_cons (topdown : bool) (top : path) (name : string) (c : node)
    (es : list (string * node)) :
  walk_below topdown top ((name, c) :: es)
  = FS.walk topdown (top ++ [name]) c ++ walk_below topdown top es.
Proof. done. Qed.




(** One real pass over [A/B] and a file beside them. *)
Example prune_example :
  FileManager.delete_empty_folders
    (Dir [("keep.txt", File (Some [])); ("A", Dir [("B", Dir [])])]) [] false
  = FileManager.PruneState (Dir [("keep.txt", File (Some []))]) 2
      [LogStartCleanup; LogDeletedEmpty ["A"; "B"]; LogDeletedEmpty ["A"]].
Proof. by vm_compute. Qed.

(** A dry run sees [A/B] only: [A] is not empty while [B] is in place. *)
Example prune_dry_example :
  FileManager.delete_empty_folders
    (Dir [("keep.txt", File (Some [])); ("A", Dir [("B", Dir [])])]) [] true
  = FileManager.PruneState
      (Dir [("keep.txt", File (Some [])); ("A", Dir [("B", Dir [])])]) 1
      [LogStartCleanup; LogFoundEmpty ["A"; "B"]].
Proof. by vm_compute. Qed.

(** ** More on the pruner and the duplicate scan *)

Lemma foldl_invariant_elem {S A : Type} (P : S → Prop) (f : S → A → S) (l : list A) (st : S) :
  P st → (∀ st a, a ∈ l → P st → P (f st a)) → P (foldl f st l).
Proof.
  revert st. induction l as [|a l IH]; intros st Hst Hstep; simpl; [done|].
  apply IH; [apply Hstep; [left|done]|]. intros st' a' Hin. apply Hstep. by right.
Qed.

(** A visit of the pruning loop keeps every file and creates none. *)
Lemma visit_folder_files (target_dir : path) (dry_run : bool) (st : FileManager.prune_state)
    (dirpath q : path) (n : option (list Byte.byte)) :
  FS.lookup_path
    (FileManager.prune_fs (FileManager.visit_folder target_dir dry_run st dirpath)) q
    = Some (File n)
  ↔ FS.lookup_path (FileManager.prune_fs st) q = Some (File n).
Proof.
  destruct (visit_folder_cases target_dir dry_run st dirpath)
    as [(-> & _)|(_ & Hne & fs' & Hrm & ->)]; [done|]. simpl.
  pose proof (rmdir_inv _ _ _ Hrm) as (parent & name & es & Hp & Hempty & Hparent & Hfs').
  split.
  - intros Hq.
    destruct (FS.lookup_path (FileManager.prune_fs st) q) as [m|] eqn:Hcur.
    2:{ by rewrite (rmdir_no_new _ _ _ Hrm) in Hq. }
    destruct (decide (q `prefix_of` dirpath)) as [[rest Hrest]|Hnot].
    + destruct rest as [|x rest].
      * rewrite app_nil_r in Hrest. subst q. by rewrite (rmdir_gone _ _ _ Hrm) in Hq.
      * assert (FS.isdir fs' q = FS.isdir (FileManager.prune_fs st) q) as Hdir.
        { apply (rmdir_isdir _ _ _ Hrm). rewrite Hrest. intros [r Hr].
          apply (f_equal length) in Hr. rewrite !length_app in Hr. simpl in Hr. lia. }
        unfold FS.isdir in Hdir. rewrite Hq, Hcur in Hdir.
        rewrite Hrest, lookup_path_app, Hcur in Hempty. simpl in Hempty.
        destruct m; [done|done].
    + rewrite (rmdir_lookup _ _ _ Hrm) in Hq; [congruence|by eauto|done].
  - intros Hq. rewrite (rmdir_lookup _ _ _ Hrm); [done|by eauto|].
    intros [rest Hrest]. rewrite Hrest, lookup_path_app, Hq in Hempty. by destruct rest.
Qed.

(** X2. The pruner deletes folders only: after a pass, in either mode, the
    files of the tree are those it had before, with their content, and a
    folder that holds a file, at any depth, is still a folder. *)
Theorem prune_keeps_files (fs : node) (target_dir : path) (dry_run : bool) :
  let fs' := FileManager.prune_fs (FileManager.delete_empty_folders fs target_dir dry_run) in
  (∀ q n, FS.lookup_path fs' q = Some (File n) ↔ FS.lookup_path fs q = Some (File n)) ∧
  (∀ q rest n, FS.lookup_path fs (q ++ rest) = Some (File n) → rest ≠ [] →
               FS.isdir fs' q = true).
Proof.
  intros fs'.
  assert (∀ q n, FS.lookup_path fs' q = Some (File n) ↔ FS.lookup_path fs q = Some (File n))
    as Hfiles.
  { subst fs'. unfold FileManager.delete_empty_folders.
    apply (foldl_invariant
             (fun st => ∀ q n, FS.lookup_path (FileManager.prune_fs st) q = Some (File n)
                               ↔ FS.lookup_path fs q = Some (File n))); [done|].
    intros st [[dirpath ?] ?] Hst q n. by rewrite visit_folder_files. }
  split; [done|]. intros q rest n Hfile Hrest.
  apply Hfiles in Hfile. rewrite lookup_path_app in Hfile. unfold FS.isdir.
  destruct (FS.lookup_path fs' q) as [[?|?]|]; [by destruct rest|done|done].
Qed.

Section ScanFrame.

Context `{!Hashlib}.

(** One file of the check tree: what lies beside the folder it is in stays. *)
Lemma check_file_frame (idx : gmap string string) (dry_run : bool)
    (st : FileManager.dup_state) (root : path) (filename : string) (q : path) :
  ¬ root `prefix_of` q → ¬ q `prefix_of` root →
  FS.lookup_path (FileManager.dup_fs (FileManager.check_file idx dry_run st root filename)) q
  = FS.lookup_path (FileManager.dup_fs st) q.
Proof.
  intros Hrq Hqr. unfold FileManager.check_file.
  destruct (FS.read _ _) as [data|e]; [|done].
  destruct (idx !! md5 data); [|done]. destruct dry_run; [done|].
  destruct (FS.remove _ _) as [fs'|e] eqn:Hrm; [|done]. simpl.
  destruct (remove_inv _ _ _ Hrm) as (parent & name & d & es & Hp & _ & _ & ->).
  apply app_inj_tail in Hp as [<- <-]. by apply lookup_update_other.
Qed.

(** X3. The duplicate scan changes nothing outside the check tree: whatever
    resolves at a path that is neither under [check_dir] nor above it
    resolves to the same file or folder after the scan, in both modes. When
    the two trees are disjoint the reference tree is left as it was. *)
Theorem scan_touches_check_tree_only (fs : node) (reference_dir check_dir : path)
    (dry_run : bool) :
  let fs' := FileManager.dup_fs
               (FileManager.find_duplicates fs reference_dir check_dir dry_run) in
  (∀ q, ¬ check_dir `prefix_of` q → ¬ q `prefix_of` check_dir →
        FS.lookup_path fs' q = FS.lookup_path fs q) ∧
  (¬ check_dir `prefix_of` reference_dir → ¬ reference_dir `prefix_of` check_dir →
   ∀ rest, FS.lookup_path fs' (reference_dir ++ rest) = FS.lookup_path fs (reference_dir ++ rest)).
Proof.
  intros fs'.
  assert (∀ q, ¬ check_dir `prefix_of` q → ¬ q `prefix_of` check_dir →
               FS.lookup_path fs' q = FS.lookup_path fs q) as Hframe.
  { intros q Hcq Hqc. subst fs'. unfold FileManager.find_duplicates.
    destruct (FileManager.build_index _ _ _) as [idx log].
    unfold FileManager.check_all.
    rewrite (walk_loop_flat (FileManager.check_file idx dry_run)).
    apply (foldl_invariant_elem
             (fun st => FS.lookup_path (FileManager.dup_fs st) q = FS.lookup_path fs q));
      [done|].
    intros st [root filename] Hin Hst.
    destruct (walk_files_under_top _ _ _ _ Hin) as [rel ->].
    rewrite check_file_frame; [done| |].
    - intros [r ->]. apply Hcq. exists (rel ++ r). by rewrite app_assoc.
    - intros Hq.
      destruct (prefix_weak_total q check_dir (check_dir ++ rel)); [done|by eexists|done|done]. }
  split; [done|]. intros Hcr Hrc rest. apply Hframe.
  - intros [r Hr]. 
    destruct (prefix_weak_total check_dir reference_dir (reference_dir ++ rest));
      [by eexists|by eexists|done|done].
  - intros [r Hr]. apply Hrc. exists (rest ++ r). by rewrite app_assoc.
Qed.

(** What the checking loop keeps true of its counters. *)
Lemma check_file_counts (idx : gmap string string) (dry_run : bool)
    (st : FileManager.dup_state) (root : path) (filename : string) :
  let counted st :=
    FileManager.found_count st
      = length (filter (fun l => is_duplicate_found l = true) (FileManager.log_messages st)) ∧
    FileManager.deleted_count st
      = length (filter (fun l => is_file_deletion l = true) (FileManager.log_messages st)) in
  counted st → counted (FileManager.check_file idx dry_run st root filename).
Proof.
  intros counted [Hf Hd]. subst counted. simpl. unfold FileManager.check_file.
  destruct (FS.read _ _) as [data|e]; [destruct (idx !! md5 data)|]; simpl; [| done |].
  - destruct dry_run; simpl.
    + split; filter_last; lia.
    + destruct (FS.remove _ _); simpl.
      * split; rewrite filter_app, length_app; filter_last; simpl; lia.
      * split; rewrite filter_app, length_app; filter_last; simpl; lia.
  - split; filter_last; lia.
Qed.

(** X4. In both modes the counts that [find_duplicates] returns are the
    numbers of lines of its log: one [Duplicate found] line per file found
    and one [Deleted] line per file deleted. *)
Theorem scan_counts_match_log (fs : node) (reference_dir check_dir : path) (dry_run : bool) :
  let st := FileManager.find_duplicates fs reference_dir check_dir dry_run in
  FileManager.found_count st
    = length (filter (fun l => is_duplicate_found l = true) (FileManager.log_messages st)) ∧
  FileManager.deleted_count st
    = length (filter (fun l => is_file_deletion l = true) (FileManager.log_messages st)).
Proof.
  intros st. subst st. unfold FileManager.find_duplicates.
  destruct (build_index_no_deletion fs reference_dir [LogStartScan; LogIndexing reference_dir])
    as [Hdel Hdup]; [by repeat constructor|done|].
  destruct (FileManager.build_index _ _ _) as [idx log]. simpl in *.
  unfold FileManager.check_all.
  rewrite (walk_loop_flat (FileManager.check_file idx dry_run)).
  apply (foldl_invariant
           (fun st =>
              FileManager.found_count st
                = length (filter (fun l => is_duplicate_found l = true)
                            (FileManager.log_messages st)) ∧
              FileManager.deleted_count st
                = length (filter (fun l => is_file_deletion l = true)
                            (FileManager.log_messages st)))).
  - simpl. rewrite !filter_app, !length_app, Hdup. simpl. split; [done|].
    assert (filter (fun l => is_file_deletion l = true) log = []) as ->; [|done].
    clear Hdup. induction log as [|l log IH]; [done|].
    apply Forall_cons in Hdel as [Hl Hdel].
    rewrite filter_cons_False; [by apply IH|]. by destruct l.
  - intros st [root filename]. apply check_file_counts.
Qed.

End ScanFrame.

(** ** The extension scanner *)





(** A file without a dot counts under ["no_extension"], [a.TXT] under [txt];
    an empty folder has no extension at all. *)
Example scan_extensions_example :
  scan_extensions
    (Dir [("readme", File (Some [])); ("a.TXT", File (Some []));
          ("sub", Dir [("b.txt", File None); ("c.png", File (Some []))])]) []
  = ["no_extension"; "png"; "txt"] ∧
  scan_extensions (Dir []) [] = [].
Proof. by vm_compute. Qed.

(** ** The file sorter: accounting *)

Lemma makedirs_raises (p : path) :
  ∀ (n : node) (e : exn),
    FS.makedirs p n = Raise e → e = FileExistsError ∨ e = NotADirectoryError.
Proof.
  induction p as [|d p IH]; intros n e; simpl.
  - destruct n; intros; simplify_eq; by left.
  - destruct n as [?|es]; [intros; simplify_eq; by right|].
    destruct (FS.assoc d es) as [c|].
    + destruct (FS.makedirs p c) as [c'|e'] eqn:Hc; simpl; [done|].
      intros [= <-]. by eapply IH.
    + destruct (FS.makedirs p (Dir [])) as [c'|e'] eqn:Hc; simpl; [done|].
      intros [= <-]. by eapply IH.
Qed.

Lemma move_all_accounting (destination_folder : path) (total_files : nat)
    (infos : list (path * string)) :
  ∀ (st : FileManager.sort_state) (i : nat),
    let st' := FileManager.move_all destination_folder total_files st i infos in
    FileManager.moved_count st' + FileManager.skipped_count st'
      = FileManager.moved_count st + FileManager.skipped_count st + length infos ∧
    FileManager.sort_progress st'
      = FileManager.sort_progress st
        ++ imap (fun j info => Progress (i + j + 1) total_files info.2) infos.
Proof.
  induction infos as [|[p name] infos IH]; intros st i st'; subst st'.
  - simpl. split; [lia|by rewrite app_nil_r].
  - change (FileManager.move_all destination_folder total_files st i ((p, name) :: infos))
      with (FileManager.move_all destination_folder total_files
              (FileManager.move_one destination_folder total_files st i (p, name))
              (S i) infos).
    destruct (IH (FileManager.move_one destination_folder total_files st i (p, name)) (S i))
      as [Hcount Hprogress].
    rewrite Hcount, Hprogress.
    assert (FileManager.moved_count
              (FileManager.move_one destination_folder total_files st i (p, name))
            + FileManager.skipped_count
                (FileManager.move_one destination_folder total_files st i (p, name))
            = S (FileManager.moved_count st + FileManager.skipped_count st) ∧
            FileManager.sort_progress
              (FileManager.move_one destination_folder total_files st i (p, name))
            = FileManager.sort_progress st ++ [Progress (i + 1) total_files name])
      as [Hone Hevent].
    { unfold FileManager.move_one. destruct (FS.move _ _ _); simpl; split; [lia|done..]. }
    rewrite Hevent, Hone. split; [cbn [length]; lia|].
    rewrite <- app_assoc. simpl. do 2 f_equal.
    + f_equal. lia.
    + apply imap_ext. intros j [??] _. simpl. f_equal. lia.
Qed.

(** X6. [sort_files] raises only when the destination folder cannot be
    created (a file is in the way), before anything is moved. Otherwise every
    selected file is either moved or skipped, so the two counts add up to the
    number of selected files, and one progress event is emitted per file,
    numbered from 1 with the total and the file's name. *)
Theorem sort_files_accounting (fs : node) (source_dir : path) (selected_ext : string) :
  let destination_folder :=
    source_dir ++ [FileManager.destination_folder_name selected_ext] in
  match FileManager.sort_files fs source_dir selected_ext with
  | Ok st =>
      ∃ fs1, FS.makedirs destination_folder fs = Ok fs1 ∧
        let infos := FileManager.files_to_move selected_ext destination_folder
                       (FS.os_walk fs1 source_dir true) in
        FileManager.moved_count st + FileManager.skipped_count st = length infos ∧
        FileManager.sort_progress st
          = imap (fun j info => Progress (j + 1) (length infos) info.2) infos
  | Raise e =>
      FS.makedirs destination_folder fs = Raise e ∧
      (e = FileExistsError ∨ e = NotADirectoryError)
  end.
Proof.
  intros destination_folder. unfold FileManager.sort_files. fold destination_folder.
  destruct (FS.makedirs destination_folder fs) as [fs1|e] eqn:Hmk; simpl.
  - exists fs1. split; [done|].
    destruct (move_all_accounting destination_folder
                (length (FileManager.files_to_move selected_ext destination_folder
                           (FS.os_walk fs1 source_dir true)))
                (FileManager.files_to_move selected_ext destination_folder
                   (FS.os_walk fs1 source_dir true))
                (FileManager.SortState fs1 0 0 []) 0) as [Hcount Hprogress].
    done.
  - split; [done|]. by eapply makedirs_raises.
Qed.

(** A file named like the destination folder stops the sort. *)
Example sort_files_blocked :
  FileManager.sort_files (Dir [("a.jpg", File (Some [])); ("jpg_files", File (Some []))])
    [] "jpg" = Raise FileExistsError.
Proof. by vm_compute. Qed.

(** ** Cropping and resizing one image *)

Section EditingFacts.

Context `{!Pillow}.
Variable crop : image → Z * Z * Z * Z → image.

(** X7. [crop_image] hands [crop] only a box that lies inside the image and
    has positive width and height: the given box clamped to the image
    bounds. Otherwise, for a missing image, a box that is not a 4-tuple or
    a box with nothing of the image in it, the image comes back as it is. *)
Theorem crop_image_clamps (img : option image) (box : list Z) :
  crop_image crop img box = img ∨
  ∃ image left0 upper right0 lower,
    img = Some image ∧ box = [left0; upper; right0; lower] ∧
    let l := Z.max 0 left0 in
    let u := Z.max 0 upper in
    let r := Z.min (size image).1 right0 in
    let d := Z.min (size image).2 lower in
    crop_image crop img box = Some (crop image (l, u, r, d)) ∧
    (0 ≤ l < r)%Z ∧ (r ≤ (size image).1)%Z ∧ (0 ≤ u < d)%Z ∧ (d ≤ (size image).2)%Z.
Proof.
  destruct img as [image|]; [|by left].
  destruct box as [|left0 [|upper [|right0 [|lower [|? ?]]]]]; try by left.
  unfold crop_image. destruct (size image) as [w h] eqn:Hsize. simpl.
  destruct ((Z.max 0 left0 <? Z.min w right0)%Z && (Z.max 0 upper <? Z.min h lower)%Z)
    eqn:Hvalid; [|by left].
  right. exists image, left0, upper, right0, lower.
  apply andb_true_iff in Hvalid as [Hlr%Z.ltb_lt Hud%Z.ltb_lt].
  rewrite Hsize. repeat split; simpl; try done; lia.
Qed.

(** A box inside the image is used as given. *)
Lemma crop_image_inside (image : image) (left0 upper right0 lower : Z) :
  (0 ≤ left0 < right0)%Z → (right0 ≤ (size image).1)%Z →
  (0 ≤ upper < lower)%Z → (lower ≤ (size image).2)%Z →
  crop_image crop (Some image) [left0; upper; right0; lower]
    = Some (crop image (left0, upper, right0, lower)).
Proof.
  intros ????. unfold crop_image. destruct (size image) as [w h]. simpl in *.
  rewrite !Z.max_r, !Z.min_r by lia.
  by rewrite (proj2 (Z.ltb_lt left0 right0)), (proj2 (Z.ltb_lt upper lower)) by lia.
Qed.


End EditingFacts.

Lemma toy_pillow_laws : @PillowLaws toy_pillow.
Proof.
  split.
  - intros img sz r. simpl. destruct ((sz.1 <? 1)%Z || (sz.2 <? 1)%Z); [done|].
    by intros [= <-].
  - intros img m r. simpl. by intros [= <-].
  - intros img m r. simpl. by intros [= <-].
Qed.


(** A box that sticks out of a 4 by 2 image is cut back to it; a box beside
    the image leaves it alone. *)
Example crop_image_example :
  @crop_image toy_pillow (fun (img : toy_image) b => Toy (b.1.2 - b.1.1.1, b.2 - b.1.1.2)%Z (toy_mode img) 0)
    (Some (Toy (4, 2)%Z "RGB" 0)) [(-3)%Z; 1%Z; 9%Z; 7%Z]
  = Some (Toy (4, 1)%Z "RGB" 0) ∧
  @crop_image toy_pillow (fun (img : toy_image) b => Toy (b.1.2 - b.1.1.1, b.2 - b.1.1.2)%Z (toy_mode img) 0)
    (Some (Toy (4, 2)%Z "RGB" 0)) [5%Z; 0%Z; 9%Z; 2%Z]
  = Some (Toy (4, 2)%Z "RGB" 0).
Proof. by vm_compute. Qed.

(** ** Scaling a dimension: [int(dimension * percentage)] *)

Lemma binary_round_aux_sign (prec emax : Z) (sx : bool) (mx ex : Z)
    (lx : SpecFloat.location) :
  match SpecFloat.binary_round_aux prec emax sx mx ex lx with
  | SpecFloat.S754_zero s | SpecFloat.S754_infinity s | SpecFloat.S754_finite s _ _ => s = sx
  | SpecFloat.S754_nan => True
  end.
Proof.
  unfold SpecFloat.binary_round_aux.
  destruct (SpecFloat.shr_fexp prec emax mx ex lx) as [mrs' e'].
  destruct (SpecFloat.shr_fexp prec emax _ e' SpecFloat.loc_Exact) as [mrs'' e''].
  destruct (SpecFloat.shr_m mrs''); [done| |done]. by case (e'' <=? emax - prec)%Z.
Qed.

Lemma of_int_nonneg (n : Z) : nonneg_SF (FloatOps.Prim2SF (Float.of_int n)).
Proof.
  unfold Float.of_int. rewrite FloatAxioms.of_uint63_spec.
  pose proof (Uint63.to_Z_bounded (Uint63.of_Z n)) as [Hpos _].
  unfold SpecFloat.binary_normalize.
  destruct (Uint63Axioms.to_Z (Uint63.of_Z n)) as [|m|m]; [done| |lia].
  unfold SpecFloat.binary_round.
  destruct (SpecFloat.shl_align _ _ _) as [mz ez].
  pose proof (binary_round_aux_sign FloatOps.prec FloatOps.emax false (Z.pos mz) ez
                SpecFloat.loc_Exact) as Hsign.
  unfold nonneg_SF. by destruct (SpecFloat.binary_round_aux _ _ _ _ _ _).
Qed.

Lemma positive_nonneg (x : PrimFloat.float) :
  PrimFloat.ltb PrimFloat.zero x = true → nonneg_SF (FloatOps.Prim2SF x).
Proof.
  rewrite FloatAxioms.ltb_spec. unfold SpecFloat.SFltb.
  replace (FloatOps.Prim2SF PrimFloat.zero) with (SpecFloat.S754_zero false) by done.
  simpl. by destruct (FloatOps.Prim2SF x) as [s|[]| |[] ? ?].
Qed.

Lemma mul_nonneg (x y : PrimFloat.float) :
  nonneg_SF (FloatOps.Prim2SF x) → nonneg_SF (FloatOps.Prim2SF y) →
  nonneg_SF (FloatOps.Prim2SF (PrimFloat.mul x y)).
Proof.
  rewrite FloatAxioms.mul_spec. unfold FloatAxioms.SF64mul, SpecFloat.SFmul.
  destruct (FloatOps.Prim2SF x) as [sx|sx| |sx mx ex],
           (FloatOps.Prim2SF y) as [sy|sy| |sy my ey]; simpl; intros; subst; try done.
  pose proof (binary_round_aux_sign FloatOps.prec FloatOps.emax (xorb false false)
                (Z.pos (mx * my)) (ex + ey) SpecFloat.loc_Exact) as Hsign.
  by destruct (SpecFloat.binary_round_aux _ _ _ _ _ _).
Qed.

(** For a value that is not negative, [int] is the floor. *)
Lemma to_int_floor (x : PrimFloat.float) (z : Z) :
  nonneg_SF (FloatOps.Prim2SF x) → Float.to_int x = Ok z → Float.floor x = Some z.
Proof.
  unfold Float.to_int, Float.floor.
  destruct (FloatOps.Prim2SF x) as [s|s| |s m e]; simpl; intros Hs Hz; simplify_eq; [done|].
  f_equal. destruct (0 <=? e)%Z eqn:He; [done|]. apply Z.leb_gt in He.
  symmetry. apply Z.quot_div_nonneg; [done|]. apply Z.pow_pos_nonneg; lia.
Qed.

(** X9. For a scale above zero, [int(dimension * percentage)] is the floor
    of the binary64 product of the dimension and the scale, and it is not
    negative. *)
Theorem scaled_is_floor (dimension : Z) (percentage : PrimFloat.float) (z : Z) :
  PrimFloat.ltb PrimFloat.zero percentage = true →
  ImageProcessor.scaled dimension percentage = Ok z →
  Float.floor (PrimFloat.mul (Float.of_int dimension) percentage) = Some z ∧ (0 ≤ z)%Z.
Proof.
  intros Hpos Hz. unfold ImageProcessor.scaled in Hz.
  pose proof (mul_nonneg _ _ (of_int_nonneg dimension) (positive_nonneg _ Hpos)) as Hnn.
  split; [by apply to_int_floor|].
  unfold Float.to_int in Hz.
  destruct (FloatOps.Prim2SF _) as [s|s| |s m e]; simpl in *; simplify_eq; [done|].
  destruct (0 <=? e)%Z eqn:He.
  - apply Z.mul_nonneg_nonneg; [done|]. apply Z.pow_nonneg. lia.
  - apply Z.leb_gt in He. apply Z.quot_pos; [done|]. apply Z.pow_pos_nonneg; lia.
Qed.

Lemma scaled_is_floor_witness :
  PrimFloat.ltb PrimFloat.zero 0.5%float = true ∧
  ImageProcessor.scaled 5 0.5%float = Ok 2%Z ∧
  Float.floor (PrimFloat.mul (Float.of_int 5) 0.5%float) = Some 2%Z ∧ (0 ≤ 2)%Z.
Proof.
  split; [reflexivity|]. split; [reflexivity|].
  apply (scaled_is_floor 5 0.5%float 2); reflexivity.
Defined.

(** Half of 5 is 2; a third of 3, rounded to binary64, is 1. *)
Example scaled_example :
  ImageProcessor.scaled 5 0.5%float = Ok 2%Z ∧
  ImageProcessor.scaled 1 0.5%float = Ok 0%Z ∧
  ImageProcessor.scaled 3 (PrimFloat.div 1%float 3%float) = Ok 1%Z.
Proof. by vm_compute. Qed.

(** ** The batch transcoder *)

Lemma makedirs_existing (p : path) :
  ∀ fs, FS.isdir fs p = true → FS.makedirs p fs = Ok fs.
Proof.
  unfold FS.isdir. induction p as [|d p IH]; intros fs; simpl.
  - by destruct fs.
  - destruct fs as [?|es]; [done|].
    destruct (FS.assoc d es) as [c|] eqn:Hd; [|done].
    intros Hc. rewrite (IH c Hc). simpl. by rewrite set_entry_same.
Qed.

Section BatchFacts.

Context `{!Pillow}.

Lemma process_image_saved `{!PillowLaws} (fs fs' : node) (source_dir dest_dir : path)
    (percentage : PrimFloat.float) (output_format : string) (quality : Z)
    (filename : string) (s : ImageProcessor.saved_image) :
  ImageProcessor.process_image fs source_dir dest_dir percentage output_format quality
    filename = Ok (fs', s) →
  saved_as_specified dest_dir percentage output_format s ∧
  ImageProcessor.saved_source s = filename.
Proof.
  unfold ImageProcessor.process_image. intros Hrun.
  destruct (FS.read fs _) as [data|] eqn:Hread; simpl in Hrun; [|done].
  destruct (open_image data) as [img|] eqn:Hopen; simpl in Hrun; [|done].
  destruct (size img) as [w h] eqn:Hsize.
  destruct (ImageProcessor.scaled w percentage) as [nw|] eqn:Hw; simpl in Hrun; [|done].
  destruct (ImageProcessor.scaled h percentage) as [nh|] eqn:Hh; simpl in Hrun; [|done].
  destruct (resize img (nw, nh)) as [resized|] eqn:Hresize; simpl in Hrun; [|done].
  destruct (Str.splitext filename) as [base_name ext] eqn:Hsplit.
  assert (size resized = (nw, nh)) as Hresized by by eapply resize_size.
  case_bool_decide as Hfmt.
  - destruct (if bool_decide (mode resized ∈ ["RGBA"; "P"])
              then convert resized "RGB" else Ok resized) as [flat|] eqn:Hflat;
      simpl in Hrun; [|done].
    destruct (save flat _ _) as [bytes|]; simpl in Hrun; [|done].
    destruct (FS.write fs _ bytes) as [fs1|]; simpl in Hrun; [|done].
    simplify_eq. split; [|done]. exists data, img, nw, nh.
    rewrite Hsize. simpl. rewrite Hsplit. simpl.
    case_bool_decide as Hmode; simplify_eq.
    + repeat split; try done.
      * by erewrite convert_size by done.
      * intros _. erewrite convert_mode by done.
        intros [?|[?|?%elem_of_nil]%elem_of_cons]%elem_of_cons; done.
    + repeat split; done.
  - destruct (save resized _ _) as [bytes|]; simpl in Hrun; [|done].
    destruct (FS.write fs _ bytes) as [fs1|]; simpl in Hrun; [|done].
    simplify_eq. split; [|done]. exists data, img, nw, nh.
    rewrite Hsize. simpl. rewrite Hsplit. simpl. repeat split; done.
Qed.

Lemma process_image_source (fs fs' : node) (source_dir dest_dir : path)
    (percentage : PrimFloat.float) (output_format : string) (quality : Z)
    (filename : string) (s : ImageProcessor.saved_image) :
  ImageProcessor.process_image fs source_dir dest_dir percentage output_format quality
    filename = Ok (fs', s) →
  ImageProcessor.saved_source s = filename.
Proof.
  unfold ImageProcessor.process_image. intros Hrun.
  destruct (FS.read fs _) as [data|]; simpl in Hrun; [|done].
  destruct (open_image data) as [img|]; simpl in Hrun; [|done].
  destruct (size img) as [w h].
  destruct (ImageProcessor.scaled w percentage) as [nw|]; simpl in Hrun; [|done].
  destruct (ImageProcessor.scaled h percentage) as [nh|]; simpl in Hrun; [|done].
  destruct (resize img (nw, nh)) as [resized|]; simpl in Hrun; [|done].
  destruct (Str.splitext filename) as [base_name ext].
  case_bool_decide.
  - destruct (if bool_decide (mode resized ∈ ["RGBA"; "P"])
              then convert resized "RGB" else Ok resized) as [flat|];
      simpl in Hrun; [|done].
    destruct (save flat _ _) as [bytes|]; simpl in Hrun; [|done].
    destruct (FS.write fs _ bytes) as [fs1|]; simpl in Hrun; [|done]. by simplify_eq.
  - destruct (save resized _ _) as [bytes|]; simpl in Hrun; [|done].
    destruct (FS.write fs _ bytes) as [fs1|]; simpl in Hrun; [|done]. by simplify_eq.
Qed.

(** The loop over the image files, for a property [Q] that every image
    saved by the loop body has. *)
Lemma process_all_saved (Q : ImageProcessor.saved_image → Prop)
    (source_dir dest_dir : path)
    (percentage : PrimFloat.float) (output_format : string) (quality : Z)
    (total_files : nat) (image_files : list string) :
  (∀ fs fs' filename s,
     ImageProcessor.process_image fs source_dir dest_dir percentage output_format quality
       filename = Ok (fs', s) → Q s) →
  ∀ (st : ImageProcessor.batch_state) (i : nat),
    let st' := ImageProcessor.process_all source_dir dest_dir percentage output_format
                 quality total_files st i image_files in
    ImageProcessor.processed_count st = length (ImageProcessor.batch_saved st) →
    Forall Q (ImageProcessor.batch_saved st) →
    ImageProcessor.processed_count st' = length (ImageProcessor.batch_saved st') ∧
    Forall Q (ImageProcessor.batch_saved st') ∧
    ImageProcessor.processed_count st'
      ≤ ImageProcessor.processed_count st + length image_files ∧
    ImageProcessor.batch_progress st'
      = ImageProcessor.batch_progress st
        ++ imap (fun j filename => Progress (i + j + 1) total_files filename) image_files ∧
    ∃ more, ImageProcessor.batch_saved st' = ImageProcessor.batch_saved st ++ more ∧
            ImageProcessor.saved_source <$> more `sublist_of` image_files.
Proof.
  intros HQ.
  induction image_files as [|filename rest IH]; intros st i st' Hcount Hsaved; subst st'.
  - simpl. split_and!; [done|done|lia|by rewrite app_nil_r|].
    exists []. by rewrite app_nil_r.
  - change (ImageProcessor.process_all source_dir dest_dir percentage output_format quality
              total_files st i (filename :: rest))
      with (ImageProcessor.process_all source_dir dest_dir percentage output_format quality
              total_files
              (ImageProcessor.process_one source_dir dest_dir percentage output_format
                 quality total_files st i filename) (S i) rest).
    set (st1 := ImageProcessor.process_one _ _ _ _ _ _ _ _ _).
    assert (ImageProcessor.processed_count st1 = length (ImageProcessor.batch_saved st1) ∧
            Forall Q (ImageProcessor.batch_saved st1) ∧
            ImageProcessor.processed_count st1 ≤ S (ImageProcessor.processed_count st) ∧
            ImageProcessor.batch_progress st1
              = ImageProcessor.batch_progress st ++ [Progress (i + 1) total_files filename] ∧
            ∃ one, ImageProcessor.batch_saved st1 = ImageProcessor.batch_saved st ++ one ∧
                   ImageProcessor.saved_source <$> one `sublist_of` [filename])
      as (Hc1 & Hs1 & Hle1 & Hp1 & one & Hone & Hsub1).
    { subst st1. unfold ImageProcessor.process_one.
      destruct (ImageProcessor.process_image _ _ _ _ _ _ _) as [[fs' out]|e] eqn:Hrun; simpl.
      - pose proof (HQ _ _ _ _ Hrun) as Hout.
        pose proof (process_image_source _ _ _ _ _ _ _ _ _ Hrun) as Hsrc.
        split_and!; [rewrite length_app; simpl; lia| |lia|done|].
        + apply Forall_app. split; [done|by constructor].
        + exists [out]. split; [done|]. simpl. by rewrite Hsrc.
      - split_and!; [done|done|lia|done|].
        exists []. split; [by rewrite app_nil_r|]. apply sublist_nil_l. }
    destruct (IH st1 (S i) Hc1 Hs1) as (Hc & Hs & Hle & Hp & more & Hmore & Hsub).
    split_and!; [done|done|simpl; lia| |].
    + rewrite Hp, Hp1, <- app_assoc. simpl. do 2 f_equal.
      * f_equal. lia.
      * apply imap_ext. intros j ? _. simpl. f_equal. lia.
    + exists (one ++ more). split; [by rewrite Hmore, Hone, app_assoc|].
      rewrite fmap_app. by apply (sublist_app _ [filename]).
Qed.

(** The early [return 0] for no image file is what the loop gives anyway. *)
Lemma batch_as_loop (fs : node) (source_dir dest_dir : path)
    (percentage : PrimFloat.float) (output_format : string) (quality : Z) :
  ImageProcessor.batch_process_images fs source_dir dest_dir percentage output_format quality
  = if negb (FS.isdir fs source_dir) || negb (FS.isdir fs dest_dir)
    then Raise (ValueError "Source or destination directory is not valid.")
    else
      fs1 ← FS.makedirs dest_dir fs;
      names ← FS.listdir fs1 source_dir;
      let image_files := filter (fun filename => supported filename = true) names in
      Ok (ImageProcessor.process_all source_dir dest_dir percentage output_format quality
            (length image_files) (ImageProcessor.BatchState fs1 0 [] []) 0 image_files).
Proof.
  unfold ImageProcessor.batch_process_images.
  destruct (negb (FS.isdir fs source_dir) || negb (FS.isdir fs dest_dir)); [done|].
  destruct (FS.makedirs dest_dir fs) as [fs1|]; [simpl|done].
  destruct (FS.listdir fs1 source_dir) as [names|]; [simpl|done].
  unfold supported. by destruct (filter _ names).
Qed.

(** X10. [batch_process_images] raises [ValueError] exactly when the source
    or the destination is not a directory, before it touches anything; with
    both in place it always returns. No failure on one file escapes: the
    count it returns is the number of images it saved, at most the number of
    files with a supported extension, in listing order, and one progress
    event is emitted for each such file. *)
Theorem batch_outcome (fs : node) (source_dir dest_dir : path)
    (percentage : PrimFloat.float) (output_format : string) (quality : Z) :
  match ImageProcessor.batch_process_images fs source_dir dest_dir percentage
          output_format quality with
  | Raise e =>
      e = ValueError "Source or destination directory is not valid." ∧
      (FS.isdir fs source_dir = false ∨ FS.isdir fs dest_dir = false)
  | Ok st =>
      FS.isdir fs source_dir = true ∧ FS.isdir fs dest_dir = true ∧
      ∃ names,
        FS.listdir fs source_dir = Ok names ∧
        let image_files := filter (fun filename => supported filename = true) names in
        ImageProcessor.processed_count st = length (ImageProcessor.batch_saved st) ∧
        ImageProcessor.processed_count st ≤ length image_files ∧
        ImageProcessor.saved_source <$> ImageProcessor.batch_saved st
          `sublist_of` image_files ∧
        ImageProcessor.batch_progress st
          = imap (fun j filename => Progress (j + 1) (length image_files) filename)
              image_files
  end.
Proof.
  rewrite batch_as_loop.
  destruct (FS.isdir fs source_dir) eqn:Hsrc; simpl; [|by split; [|left]].
  destruct (FS.isdir fs dest_dir) eqn:Hdst; simpl; [|by split; [|right]].
  rewrite makedirs_existing by done. simpl.
  unfold FS.listdir. unfold FS.isdir in Hsrc.
  destruct (FS.lookup_path fs source_dir) as [[?|es]|]; try done. simpl.
  set (image_files := filter _ (es.*1)).
  destruct (process_all_saved (fun _ => True) source_dir dest_dir percentage output_format
              quality (length image_files) image_files (fun _ _ _ _ _ => I)
              (ImageProcessor.BatchState fs 0 [] []) 0)
    as (Hc & Hs & Hle & Hp & more & Hmore & Hsub); [done|done|].
  simpl in Hmore, Hle, Hp.
  split; [done|]. split; [done|]. exists (es.*1). split; [done|].
  fold image_files. split_and!; [done|done|by rewrite Hmore|done].
Qed.

(** X11. Every image the batch saves is the output for one decoded image,
    written to [dest_dir/<stem>.<format in lowercase>], and has the size
    [(int(w * percentage), int(h * percentage))] for the decoded size
    [(w, h)]; when the format is [jpeg] or [webp] its mode is neither [RGBA]
    nor [P]: such an image was converted to [RGB] before it was saved. *)
Theorem batch_saved_images `{!PillowLaws} (fs : node) (source_dir dest_dir : path)
    (percentage : PrimFloat.float) (output_format : string) (quality : Z)
    (st : ImageProcessor.batch_state) :
  ImageProcessor.batch_process_images fs source_dir dest_dir percentage output_format
    quality = Ok st →
  Forall (saved_as_specified dest_dir percentage output_format)
    (ImageProcessor.batch_saved st).
Proof.
  unfold ImageProcessor.batch_process_images.
  destruct (negb (FS.isdir fs source_dir) || negb (FS.isdir fs dest_dir)); [done|].
  destruct (FS.makedirs dest_dir fs) as [fs1|]; [simpl|done].
  destruct (FS.listdir fs1 source_dir) as [names|]; [simpl|done].
  set (image_files := filter _ names).
  destruct (process_all_saved (saved_as_specified dest_dir percentage output_format)
              source_dir dest_dir percentage output_format quality
              (length image_files) image_files
              (fun fs0 fs0' filename s Hrun =>
                 proj1 (process_image_saved fs0 fs0' source_dir dest_dir percentage
                          output_format quality filename s Hrun))
              (ImageProcessor.BatchState fs1 0 [] []) 0)
    as (_ & Hs & _); [done|done|].
  destruct image_files; intros [= <-]; [by constructor|done].
Qed.

End BatchFacts.

Lemma batch_saved_images_witness :
  match ImageProcessor.batch_process_images
          (Dir [("in", Dir [("a.png", File (Some [])); ("notes.txt", File (Some []))]);
                ("out", Dir [])])
          ["in"] ["out"] 0.5%float "JPEG" 90 with
  | Ok st =>
      ImageProcessor.processed_count st = 1 ∧
      Forall (saved_as_specified ["out"] 0.5%float "JPEG") (ImageProcessor.batch_saved st)
  | Raise _ => False
  end.
Proof.
  destruct (ImageProcessor.batch_process_images _ _ _ _ _ _) as [st|e] eqn:Hrun.
  - split.
    + vm_compute in Hrun. by injection Hrun as <-.
    + exact (@batch_saved_images toy_pillow toy_pillow_laws _ _ _ _ _ _ st Hrun).
  - vm_compute in Hrun. discriminate Hrun.
Defined.

(** A 4 by 2 [RGBA] image at half size, saved as [jpeg]: one 2 by 1 [RGB]
    image at [out/a.jpeg]; the text file is not looked at. *)
Example batch_example :
  ImageProcessor.batch_saved <$>
    match ImageProcessor.batch_process_images
            (Dir [("in", Dir [("a.png", File (Some [])); ("notes.txt", File (Some []))]);
                  ("out", Dir [])])
            ["in"] ["out"] 0.5%float "JPEG" 90 with
    | Ok st => Some st
    | Raise _ => None
    end
  = Some [ImageProcessor.Saved ["out"; "a.jpeg"] "a.png" (Toy (2, 1)%Z "RGB" 0)].
Proof. by vm_compute. Qed.

(** Without the destination folder nothing is read. *)
Example batch_missing_directory :
  ImageProcessor.batch_process_images (Dir [("in", Dir [])]) ["in"] ["out"] 0.5%float "png" 90
  = Raise (ValueError "Source or destination directory is not valid.").
Proof. by vm_compute. Qed.

(** ** The frame extractor on one file *)



Section ExtractFacts.

Context `{!Pillow}.



End ExtractFacts.

(** A two-frame file gives two frames, named with four digits. *)
Example extract_single_file_frames :
  (fun st => (ImageProcessor.total_frames_extracted st,
              FS.listdir (ImageProcessor.extract_fs st) ["out"; "a"])) <$>
    match ImageProcessor.extract_gif_frames
            (Dir [("gifs", Dir [("a.GIF", File (Some [Byte.x47; Byte.x49]))])])
            ["gifs"; "a.GIF"] ["out"] true with
    | Ok st => Some st
    | Raise _ => None
    end
  = Some (2, Ok ["a_frame_0000.png"; "a_frame_0001.png"]).
Proof. by vm_compute. Qed.

(** A path that is no [.gif] file is refused. *)
Example extract_single_file_invalid :
  ImageProcessor.extract_gif_frames (Dir [("a.png", File (Some []))]) ["a.png"] ["out"] true
  = Raise (ValueError "Invalid single GIF file path").
Proof. by vm_compute. Qed.

(** ** Well-formed trees *)

Lemma wf_Dir (es : list (string * node)) :
  FS.wf (Dir es) = true ↔ NoDup es.*1 ∧ Forall (fun e => FS.wf e.2 = true) es.
Proof.
  simpl. rewrite andb_true_iff, bool_decide_eq_true.
  assert ((fix wf_entries (l : list (string * node)) : bool :=
             match l with
             | [] => true
             | (_, c) :: l' => FS.wf c && wf_entries l'
             end) es = true ↔ Forall (fun e => FS.wf e.2 = true) es) as ->; [|done].
  induction es as [|[name c] es IH]; [by split; [constructor|]|].
  rewrite andb_true_iff, Forall_cons, IH. done.
Qed.

Lemma NoDup_assoc (es : list (string * node)) (name : string) (c : node) :
  NoDup es.*1 → (name, c) ∈ es → FS.assoc name es = Some c.
Proof.
  induction es as [|[k c0] es IH]; intros Hnd Hin; [by apply elem_of_nil in Hin|].
  apply NoDup_cons in Hnd as [Hk Hnd]. simpl.
  apply elem_of_cons in Hin as [Heq|Hin]; [simplify_eq; by rewrite decide_True|].
  rewrite decide_False; [by apply IH|].
  intros ->. apply Hk. apply list_elem_of_fmap. by exists (name, c).
Qed.

Lemma wf_lookup (p : path) :
  ∀ fs n, FS.wf fs = true → FS.lookup_path fs p = Some n → FS.wf n = true.
Proof.
  induction p as [|d p IH]; intros fs n Hwf Hn; simpl in Hn; [by simplify_eq|].
  destruct fs as [?|es]; [done|].
  destruct (FS.assoc d es) as [c|] eqn:Hd; [|done].
  apply wf_Dir in Hwf as [_ Hall]. rewrite Forall_forall in Hall.
  apply (IH c n); [|done]. by apply (Hall (d, c)), assoc_Some_elem.
Qed.

Lemma set_entry_names (name : string) (c : node) (es : list (string * node)) :
  (FS.set_entry name c es).*1 = es.*1.
Proof.
  induction es as [|[k c0] es IH]; simpl; [done|].
  case_decide; [by subst|]. rewrite !fmap_cons. by f_equal.
Qed.

Lemma set_entry_Forall (P : node → Prop) (name : string) (c : node)
    (es : list (string * node)) :
  P c → Forall (fun e => P e.2) es → Forall (fun e => P e.2) (FS.set_entry name c es).
Proof.
  intros Hc. induction es as [|[k c0] es IH]; simpl; [done|].
  intros [Hc0 Hes]%Forall_cons. case_decide; constructor; auto.
Qed.

(** An update keeps the tree well formed when it keeps listings so. *)
Lemma wf_update (f : list (string * node) → list (string * node)) (p : path) :
  (∀ es, NoDup es.*1 → Forall (fun e => FS.wf e.2 = true) es →
         NoDup (f es).*1 ∧ Forall (fun e => FS.wf e.2 = true) (f es)) →
  ∀ fs, FS.wf fs = true → FS.wf (FS.update p f fs) = true.
Proof.
  intros Hf. induction p as [|d p IH]; intros fs Hwf.
  - destruct fs as [?|es]; [done|]. simpl. apply wf_Dir. apply wf_Dir in Hwf as [??].
    by apply Hf.
  - destruct fs as [?|es]; [done|]. simpl.
    destruct (FS.assoc d es) as [c|] eqn:Hd; [|done].
    apply wf_Dir in Hwf as [Hnd Hall]. apply wf_Dir. rewrite set_entry_names.
    split; [done|]. apply (set_entry_Forall (fun n => FS.wf n = true)); [|done].
    apply IH. rewrite Forall_forall in Hall. by apply (Hall (d, c)), assoc_Some_elem.
Qed.

Lemma wf_remove_entry (name : string) (p : path) (fs : node) :
  FS.wf fs = true → FS.wf (FS.update p (FS.remove_entry name) fs) = true.
Proof.
  apply wf_update. intros es Hnd Hall. unfold FS.remove_entry. split.
  - eapply sublist_NoDup; [done|]. apply fmap_sublist, sublist_filter.
  - rewrite Forall_forall in Hall |- *. intros e [_ Hin]%list_elem_of_filter. by apply Hall.
Qed.

Lemma wf_put_entry (name : string) (c : node) (p : path) (fs : node) :
  FS.wf c = true → FS.wf fs = true → FS.wf (FS.update p (FS.put_entry name c) fs) = true.
Proof.
  intros Hc. apply wf_update. intros es Hnd Hall. unfold FS.put_entry.
  destruct (FS.assoc name es) as [c0|] eqn:Hname.
  - rewrite set_entry_names. split; [done|].
    by apply (set_entry_Forall (fun n => FS.wf n = true)).
  - rewrite fmap_app. simpl. split.
    + apply NoDup_app. split; [done|]. split; [|apply NoDup_singleton].
      intros x Hx ->%list_elem_of_singleton. by apply assoc_None in Hname.
    + apply Forall_app. split; [done|]. by constructor.
Qed.

Lemma wf_makedirs (p : path) :
  ∀ fs fs', FS.wf fs = true → FS.makedirs p fs = Ok fs' → FS.wf fs' = true.
Proof.
  induction p as [|d p IH]; intros fs fs' Hwf Hmk; simpl in Hmk.
  - destruct fs; by simplify_eq.
  - destruct fs as [?|es]; [done|]. pose proof Hwf as [Hnd Hall]%wf_Dir.
    destruct (FS.assoc d es) as [c|] eqn:Hd.
    + destruct (FS.makedirs p c) as [c'|] eqn:Hc; simpl in Hmk; [|done]. simplify_eq.
      apply wf_Dir. rewrite set_entry_names. split; [done|].
      apply (set_entry_Forall (fun n => FS.wf n = true)); [|done].
      apply (IH c); [|done]. rewrite Forall_forall in Hall.
      by apply (Hall (d, c)), assoc_Some_elem.
    + destruct (FS.makedirs p (Dir [])) as [c'|] eqn:Hc; simpl in Hmk; [|done].
      simplify_eq. apply wf_Dir. rewrite fmap_app. simpl. split.
      * apply NoDup_app. split; [done|]. split; [|apply NoDup_singleton].
        intros x Hx ->%list_elem_of_singleton. by apply assoc_None in Hd.
      * apply Forall_app. split; [done|]. constructor; [|done]. by apply (IH (Dir [])).
Qed.

(** In a well-formed tree, what a walk yields resolves. *)
Lemma walk_sound (topdown : bool) (n : node) :
  ∀ (top : path) (t : path * list string * list string),
    FS.wf n = true → t ∈ FS.walk topdown top n →
    ∃ rel es, t = (top ++ rel, FS.dirnames es, FS.filenames es) ∧
              FS.lookup_path n rel = Some (Dir es).
Proof.
  induction n as [data|es IH] using node_ind'; intros top t Hwf Ht.
  - by apply elem_of_nil in Ht.
  - apply elem_of_walk_Dir in Ht as [->|Ht].
    + exists [], es. by rewrite app_nil_r.
    + apply elem_of_walk_below in Ht as (name & c & Hin & Ht).
      apply wf_Dir in Hwf as [Hnd Hall]. rewrite Forall_forall in IH, Hall.
      destruct (IH _ Hin (top ++ [name]) t (Hall _ Hin) Ht) as (rel & es' & -> & Hrel).
      exists (name :: rel), es'. rewrite <- app_assoc. split; [done|].
      simpl. by rewrite (NoDup_assoc _ _ _ Hnd Hin).
Qed.

Lemma filenames_assoc (es : list (string * node)) (name : string) :
  NoDup es.*1 → name ∈ FS.filenames es → ∃ data, FS.assoc name es = Some (File data).
Proof.
  intros Hnd ([k c] & -> & [Hfile Hin]%list_elem_of_filter)%list_elem_of_fmap.
  simpl in *. destruct c as [data|?]; [|done]. exists data. by apply NoDup_assoc.
Qed.

Lemma walk_files_sound (fs : node) (top root : path) (name : string) :
  FS.wf fs = true →
  (root, name) ∈ walk_files (FS.os_walk fs top true) →
  ∃ rel data, root = top ++ rel ∧ FS.lookup_path fs (root ++ [name]) = Some (File data).
Proof.
  intros Hwf. unfold walk_files, FS.os_walk. rewrite list_elem_of_bind.
  intros ([[root' dirs] files] & Hin & Ht).
  apply list_elem_of_fmap in Hin as (f & [= -> ->] & Hf).
  destruct (FS.lookup_path fs top) as [n|] eqn:Htop; [|by apply elem_of_nil in Ht].
  pose proof (wf_lookup _ _ _ Hwf Htop) as Hwfn.
  destruct (walk_sound _ _ _ _ Hwfn Ht) as (rel & es & [= -> -> ->] & Hrel).
  pose proof (wf_lookup _ _ _ Hwfn Hrel) as [Hnd _]%wf_Dir.
  destruct (filenames_assoc _ _ Hnd Hf) as [data Hdata].
  exists rel, data. split; [done|].
  rewrite <- app_assoc, lookup_path_app, Htop. simpl.
  rewrite lookup_path_app, Hrel. simpl. by rewrite Hdata.
Qed.

(** ** Moving a file *)

Lemma unique_name_free (fs : node) (destination_folder : path) (original_filename : string) :
  FS.exists_ fs (destination_folder
                 ++ [FileManager._get_unique_filename fs destination_folder original_filename])
  = false.
Proof.
  destruct (least_free_probe fs destination_folder original_filename)
    as (k & Hk & Hfree & Hbelow).
  unfold FileManager._get_unique_filename.
  destruct (Str.splitext original_filename) as [b e] eqn:Hsplit.
  pose proof (unique_loop_least fs destination_folder original_filename k Hfree Hbelow
                (S (S (FileManager.entry_count fs destination_folder))) 0) as Hloop.
  rewrite Hsplit in Hloop. simpl in Hloop.
  assert (FileManager.unique_loop (S (S (FileManager.entry_count fs destination_folder))) fs
            destination_folder b e 0 original_filename = probe original_filename k) as ->
    by (apply Hloop; lia).
  done.
Qed.

(** Putting an entry [u] into the directory at [dest]. *)
Lemma lookup_put_below (fs : node) (dest rest : path) (u : string) (c : node)
    (es : list (string * node)) :
  FS.lookup_path fs dest = Some (Dir es) →
  FS.lookup_path (FS.update dest (FS.put_entry u c) fs) (dest ++ u :: rest)
  = FS.lookup_path c rest.
Proof.
  intros Hdest. rewrite lookup_update_below, Hdest. simpl.
  by rewrite assoc_put_entry, decide_True.
Qed.

Lemma lookup_put_other (fs : node) (dest q : path) (u : string) (c : node)
    (es : list (string * node)) :
  FS.lookup_path fs dest = Some (Dir es) →
  ¬ q `prefix_of` dest → ¬ (dest ++ [u]) `prefix_of` q →
  FS.lookup_path (FS.update dest (FS.put_entry u c) fs) q = FS.lookup_path fs q.
Proof.
  intros Hdest Hq Hu. destruct (decide (dest `prefix_of` q)) as [[rest ->]|Hnot].
  - rewrite lookup_update_below, lookup_path_app, Hdest. simpl.
    destruct rest as [|x rest]; [exfalso; apply Hq; by rewrite app_nil_r|].
    simpl. rewrite assoc_put_entry, decide_False; [done|].
    intros ->. apply Hu. apply prefix_snoc_inv. by exists rest.
  - by apply lookup_update_other.
Qed.

Lemma update_keeps_kind (f : list (string * node) → list (string * node)) (rest : path)
    (n : node) :
  FS.is_dir (FS.update rest f n) = FS.is_dir n.
Proof.
  destruct n as [?|es]; [by rewrite update_nil_File|].
  destruct rest; simpl; [done|]. by destruct (FS.assoc _ _).
Qed.

Lemma isdir_update_above (f : list (string * node) → list (string * node)) (q rest : path)
    (fs : node) :
  FS.isdir (FS.update (q ++ rest) f fs) q = FS.isdir fs q.
Proof.
  unfold FS.isdir. rewrite lookup_update_above.
  destruct (FS.lookup_path fs q) as [n|]; simpl; [|done].
  pose proof (update_keeps_kind f rest n) as Hkind.
  by destruct (FS.update rest f n), n.
Qed.

Section MoveFile.

Variables (cur : node) (root dest : path) (f u : string) (data : option (list Byte.byte)).
Hypothesis Hfile : FS.lookup_path cur (root ++ [f]) = Some (File data).
Hypothesis Hdest : FS.isdir cur dest = true.
Hypothesis Hfree : FS.exists_ cur (dest ++ [u]) = false.

Local Abbreviation mid := (FS.update root (FS.remove_entry f) cur).
Local Abbreviation moved := (FS.update dest (FS.put_entry u (File data)) mid).

Lemma move_file_remove : FS.remove cur (root ++ [f]) = Ok mid.
Proof using Hfile. unfold FS.remove. by rewrite split_last_snoc, Hfile. Qed.

Lemma move_file_root : ∃ es, FS.lookup_path cur root = Some (Dir es).
Proof using Hfile.
  rewrite lookup_path_app in Hfile.
  destruct (FS.lookup_path cur root) as [[?|es]|]; simplify_eq/=. by exists es.
Qed.

Lemma move_file_mid_lookup (q : path) :
  ¬ q `prefix_of` root →
  FS.lookup_path mid q
  = if decide ((root ++ [f]) `prefix_of` q) then None else FS.lookup_path cur q.
Proof using Hfile.
  destruct move_file_root as [es Hroot]. intros Hq. by apply (lookup_remove_entry _ _ _ _ es).
Qed.

Lemma move_file_mid_isdir (q : path) : FS.isdir mid q = FS.isdir cur q.
Proof using Hfile.
  destruct (decide (q `prefix_of` root)) as [[rest Hrest]|Hq].
  - rewrite Hrest. apply isdir_update_above.
  - unfold FS.isdir. rewrite move_file_mid_lookup by done.
    case_decide as Hp; [|done]. destruct Hp as [rest ->].
    rewrite lookup_path_app, Hfile. by destruct rest.
Qed.

Lemma move_file_mid_free : FS.lookup_path mid (dest ++ [u]) = None.
Proof using Hfile Hfree.
  unfold FS.exists_ in Hfree.
  destruct (FS.lookup_path cur (dest ++ [u])) eqn:Hdst; [done|].
  destruct (decide ((dest ++ [u]) `prefix_of` root)) as [[rest Hrest]|Hq].
  - exfalso. destruct move_file_root as [es Hroot].
    by rewrite Hrest, lookup_path_app, Hdst in Hroot.
  - rewrite move_file_mid_lookup by done. by case_decide.
Qed.

Lemma move_file_mid_dest : ∃ es, FS.lookup_path mid dest = Some (Dir es).
Proof using Hfile Hdest.
  pose proof (move_file_mid_isdir dest) as Hdir. rewrite Hdest in Hdir.
  unfold FS.isdir in Hdir. destruct (FS.lookup_path mid dest) as [[?|es]|]; try done.
  by exists es.
Qed.

Lemma move_file_Ok : FS.move cur (root ++ [f]) (dest ++ [u]) = Ok moved.
Proof using Hfile Hdest Hfree.
  unfold FS.move.
  assert (FS.isdir cur (dest ++ [u]) = false) as ->.
  { unfold FS.isdir, FS.exists_ in *. by destruct (FS.lookup_path cur (dest ++ [u])). }
  unfold FS.rename. rewrite !split_last_snoc, Hfile.
  destruct move_file_mid_dest as [es ->]. by rewrite move_file_mid_free.
Qed.

Lemma move_file_not_above (q : path) (n : option (list Byte.byte)) :
  FS.lookup_path cur q = Some (File n) → ¬ q `prefix_of` dest ∧ ¬ q `prefix_of` root.
Proof using Hfile Hdest.
  intros Hq. split; intros [rest Hrest].
  - unfold FS.isdir in Hdest. rewrite Hrest, lookup_path_app, Hq in Hdest. by destruct rest.
  - destruct move_file_root as [es Hroot].
    rewrite Hrest, lookup_path_app, Hq in Hroot. by destruct rest.
Qed.

(** The moved file is at its new place with its content. *)
Lemma move_file_arrived : FS.lookup_path moved (dest ++ [u]) = Some (File data).
Proof using Hfile Hdest.
  destruct move_file_mid_dest as [es Hmid]. by rewrite (lookup_put_below _ _ _ _ _ es).
Qed.

(** Whether a path is a directory does not change. *)
Lemma move_file_isdir (q : path) : FS.isdir moved q = FS.isdir cur q.
Proof using Hfile Hdest Hfree.
  rewrite <- move_file_mid_isdir. destruct move_file_mid_dest as [es Hmid].
  destruct (decide (q `prefix_of` dest)) as [[rest Hrest]|Hq];
    [rewrite Hrest; apply isdir_update_above|].
  unfold FS.isdir. destruct (decide ((dest ++ [u]) `prefix_of` q)) as [Hu|Hu].
  - apply prefix_snoc_inv in Hu as [rest ->].
    rewrite (lookup_put_below _ _ _ _ _ es) by done.
    replace (dest ++ u :: rest) with ((dest ++ [u]) ++ rest) by by rewrite <- app_assoc.
    rewrite lookup_path_app, move_file_mid_free. by destruct rest.
  - by rewrite (lookup_put_other _ _ _ _ _ es).
Qed.

(** Every other file is where it was, and no other file appears. *)
Lemma move_file_others (q : path) (n : option (list Byte.byte)) :
  q ≠ dest ++ [u] → q ≠ root ++ [f] →
  FS.lookup_path moved q = Some (File n) ↔ FS.lookup_path cur q = Some (File n).
Proof using Hfile Hdest Hfree.
  intros Hqu Hqf. destruct move_file_mid_dest as [es Hmid].
  destruct (decide (q `prefix_of` dest)) as [Hq|Hq].
  { split; intros Hfile'; exfalso.
    - assert (FS.isdir moved q = true) as Hd.
      { rewrite move_file_isdir. unfold FS.isdir in *. destruct Hq as [rest Hrest].
        rewrite Hrest, lookup_path_app in Hdest.
        destruct (FS.lookup_path cur q) as [[?|?]|]; try done. by destruct rest. }
      unfold FS.isdir in Hd. by rewrite Hfile' in Hd.
    - by apply (proj1 (move_file_not_above q n Hfile')). }
  destruct (decide ((dest ++ [u]) `prefix_of` q)) as [Hu|Hu].
  - apply prefix_snoc_inv in Hu as [rest ->].
    rewrite (lookup_put_below _ _ _ _ _ es) by done.
    destruct rest as [|x rest]; [done|]. simpl. split; [done|]. intros Hcur.
    unfold FS.exists_ in Hfree.
    replace (dest ++ u :: x :: rest) with ((dest ++ [u]) ++ x :: rest) in Hcur
      by by rewrite <- app_assoc.
    rewrite lookup_path_app in Hcur.
    by destruct (FS.lookup_path cur (dest ++ [u])).
  - rewrite (lookup_put_other _ _ _ _ _ es) by done.
    pose proof move_file_remove as Hrm. split; intros Hq'.
    + by apply (remove_no_new_file _ _ _ Hrm).
    + by apply (remove_keeps_others _ _ _ Hrm).
Qed.

(** The file is gone from its old place. *)
Lemma move_file_gone : FS.isfile moved (root ++ [f]) = false.
Proof using Hfile Hdest Hfree.
  destruct move_file_mid_dest as [es Hmid]. unfold FS.isfile.
  assert (root ++ [f] ≠ dest ++ [u]) as Hne.
  { intros Heq. unfold FS.exists_ in Hfree. by rewrite <- Heq, Hfile in Hfree. }
  destruct (move_file_not_above _ _ Hfile) as [Hd Hr].
  rewrite (lookup_put_other _ _ _ _ _ es); [|done|done|].
  - rewrite move_file_mid_lookup by done. by rewrite decide_True.
  - intros [rest Hrest]. unfold FS.exists_ in Hfree.
    rewrite Hrest, lookup_path_app in Hfile.
    by destruct (FS.lookup_path cur (dest ++ [u])).
Qed.

Lemma move_file_wf : FS.wf cur = true → FS.wf moved = true.
Proof using Type.
  intros Hwf. apply wf_put_entry; [done|]. by apply wf_remove_entry.
Qed.

End MoveFile.

(** ** The moving loop of [sort_files] *)

Lemma isfile_true (fs : node) (q : path) :
  FS.isfile fs q = true ↔ ∃ n, FS.lookup_path fs q = Some (File n).
Proof.
  unfold FS.isfile. destruct (FS.lookup_path fs q) as [[n|es]|].
  - split; [by exists n|done].
  - split; [done|]. by intros [? ?].
  - split; [done|]. by intros [? ?].
Qed.

Lemma isfile_lookup (fs : node) (q : path) (n : option (list Byte.byte)) :
  FS.lookup_path fs q = Some (File n) → FS.isfile fs q = true.
Proof. intros Hq. apply isfile_true. by exists n. Qed.

Lemma move_missing (cur : node) (p dst : path) :
  FS.lookup_path cur p = None → FS.exists_ cur dst = false →
  ∃ e, FS.move cur p dst = Raise e.
Proof.
  intros Hp Hdst. unfold FS.move.
  assert (FS.isdir cur dst = false) as ->.
  { unfold FS.isdir, FS.exists_ in *. by destruct (FS.lookup_path cur dst). }
  unfold FS.rename. destruct (FS.split_last p) as [[? ?]|]; [|by eexists].
  destruct (FS.split_last dst) as [[? ?]|]; [|by eexists]. rewrite Hp. by eexists.
Qed.

Lemma outside_not_inside (folder : path) (u : string) : ¬ outside_folder folder (folder ++ [u]).
Proof. intros (root & name & Heq & Hne). by apply app_inj_tail in Heq as [-> _]. Qed.

Section SortLoop.

Variables (fs1 : node) (dest : path) (total : nat).
Hypothesis Hdest1 : FS.isdir fs1 dest = true.

(** One move: the tree stays well formed with the same directories, the
    moved path is no file afterwards, no file appears outside [dest], and
    every file keeps its content, at its place or, for the moved one, in
    [dest]. *)
Lemma move_one_step (st : FileManager.sort_state) (i : nat) (p : path) (name : string) :
  sort_inv fs1 (FileManager.sort_fs st) →
  (∃ root, p = root ++ [name] ∧ root ≠ dest) →
  FS.isdir fs1 p = false →
  let st' := FileManager.move_one dest total st i (p, name) in
  sort_inv fs1 (FileManager.sort_fs st') ∧
  FS.isfile (FileManager.sort_fs st') p = false ∧
  (∀ q, outside_folder dest q → FS.isfile (FileManager.sort_fs st) q = false →
        FS.isfile (FileManager.sort_fs st') q = false) ∧
  (∀ q d, FS.lookup_path (FileManager.sort_fs st) q = Some (File d) →
          FS.lookup_path (FileManager.sort_fs st') q = Some (File d) ∨
          (q = p ∧ ∃ u, FS.lookup_path (FileManager.sort_fs st') (dest ++ [u]) = Some (File d))).
Proof using Hdest1.
  intros [Hwf Hdirs] (root & -> & Hroot) Hnodir st'. subst st'.
  unfold FileManager.move_one.
  set (cur := FileManager.sort_fs st) in *.
  set (u := FileManager._get_unique_filename cur dest name).
  pose proof (unique_name_free cur dest name) as Hfree. fold u in Hfree.
  assert (FS.isdir cur dest = true) as Hdest by by rewrite Hdirs.
  destruct (FS.lookup_path cur (root ++ [name])) as [[data|es]|] eqn:Hp.
  - rewrite (move_file_Ok cur root dest name u data Hp Hdest Hfree). simpl.
    pose proof (move_file_others cur root dest name u data Hp Hdest Hfree) as Hothers.
    pose proof (move_file_gone cur root dest name u data Hp Hdest Hfree) as Hgone.
    split_and!.
    + split; [by apply move_file_wf|]. intros q.
      by rewrite (move_file_isdir cur root dest name u data Hp Hdest Hfree).
    + done.
    + intros q Hout Hq. destruct (decide (q = root ++ [name])) as [->|Hqp]; [done|].
      destruct (decide (q = dest ++ [u])) as [->|Hqu]; [by apply outside_not_inside in Hout|].
      apply not_true_is_false. intros [n Hn]%isfile_true. apply Hothers in Hn; [|done..].
      by rewrite (isfile_lookup _ _ _ Hn) in Hq.
    + intros q d Hq. destruct (decide (q = root ++ [name])) as [->|Hqp].
      * right. split; [done|]. exists u. rewrite Hp in Hq. simplify_eq.
        by apply move_file_arrived.
      * left. apply Hothers; [|done..]. intros ->.
        unfold FS.exists_ in Hfree. by rewrite Hq in Hfree.
  - specialize (Hdirs (root ++ [name])). unfold FS.isdir in Hdirs at 1.
    rewrite Hp in Hdirs. congruence.
  - destruct (move_missing cur (root ++ [name]) (dest ++ [u]) Hp Hfree) as [e ->]. simpl.
    fold cur. split_and!; [done| |done|by left].
    unfold FS.isfile. by rewrite Hp.
Qed.

(** The whole loop. *)
Lemma move_all_inv (infos : list (path * string)) :
  ∀ (st : FileManager.sort_state) (i : nat),
    sort_inv fs1 (FileManager.sort_fs st) →
    (∀ p name, (p, name) ∈ infos →
       (∃ root, p = root ++ [name] ∧ root ≠ dest) ∧ FS.isdir fs1 p = false) →
    let st' := FileManager.move_all dest total st i infos in
    sort_inv fs1 (FileManager.sort_fs st') ∧
    (∀ p name, (p, name) ∈ infos → FS.isfile (FileManager.sort_fs st') p = false) ∧
    (∀ q, outside_folder dest q → FS.isfile (FileManager.sort_fs st) q = false →
          FS.isfile (FileManager.sort_fs st') q = false) ∧
    (∀ q d, FS.lookup_path (FileManager.sort_fs st) q = Some (File d) →
            FS.lookup_path (FileManager.sort_fs st') q = Some (File d) ∨
            ((∃ name, (q, name) ∈ infos) ∧
             ∃ u, FS.lookup_path (FileManager.sort_fs st') (dest ++ [u]) = Some (File d))).
Proof using Hdest1.
  induction infos as [|[p name] infos IH]; intros st i Hinv Hgood st'; subst st'.
  - simpl. split_and!; [done| |done|by left]. intros ?? []%elem_of_nil.
  - change (FileManager.move_all dest total st i ((p, name) :: infos))
      with (FileManager.move_all dest total
              (FileManager.move_one dest total st i (p, name)) (S i) infos).
    destruct (Hgood p name) as [Hout Hnodir]; [left|].
    destruct (move_one_step st i p name Hinv Hout Hnodir) as (Hinv1 & Hgone1 & Hkeep1 & Hcont1).
    set (st1 := FileManager.move_one dest total st i (p, name)) in *.
    destruct (IH st1 (S i) Hinv1) as (Hinv2 & Hgone2 & Hkeep2 & Hcont2).
    { intros p' name' Hin. apply Hgood. by right. }
    split_and!.
    + done.
    + intros p' name' [[= -> ->]|Hin]%elem_of_cons.
      * apply Hkeep2; [|done]. destruct Hout as (root & -> & Hroot). by exists root, name.
      * by apply (Hgone2 p' name').
    + intros q Hq Hfile. by apply Hkeep2, Hkeep1.
    + intros q d Hq. destruct (Hcont1 q d Hq) as [Hq1|[-> [u Hu]]].
      * destruct (Hcont2 q d Hq1) as [?|[[name' Hin] Hu]]; [by left|].
        right. split; [|done]. exists name'. by right.
      * right. split; [exists name; left|].
        destruct (Hcont2 _ d Hu) as [?|[[name' Hin] Hu']]; [by exists u|].
        exfalso. destruct (Hgood _ _ (list_elem_of_further _ _ _ Hin)) as [(root & Heq & Hne) _].
        by apply app_inj_tail in Heq as [<- _].
Qed.

End SortLoop.

(** The pairs the first loop of [sort_files] collects. *)
Lemma elem_of_files_to_move (selected_ext : string) (dest p : path) (name : string)
    (triples : list (path * list string * list string)) :
  (p, name) ∈ FileManager.files_to_move selected_ext dest triples ↔
  ∃ root, p = root ++ [name] ∧ (root, name) ∈ walk_files triples ∧ root ≠ dest ∧
          FileManager.selected selected_ext name = true.
Proof.
  unfold FileManager.files_to_move, walk_files. rewrite list_elem_of_bind. split.
  - intros ([[root dirs] files] & Hin & Ht). case_decide as Hroot; [by apply elem_of_nil in Hin|].
    apply list_elem_of_fmap in Hin as (f & [= -> ->] & [Hsel Hf]%list_elem_of_filter).
    exists root. split_and!; try done. apply list_elem_of_bind.
    exists (root, dirs, files). split; [|done]. apply list_elem_of_fmap. by exists f.
  - intros (root & -> & Hin & Hroot & Hsel). apply list_elem_of_bind in Hin
      as ([[root' dirs] files] & Hin & Ht).
    apply list_elem_of_fmap in Hin as (f & [= <- <-] & Hf).
    exists (root, dirs, files). split; [|done]. rewrite decide_False by done.
    apply list_elem_of_fmap. exists name. split; [done|]. by apply list_elem_of_filter.
Qed.

(** [os.makedirs(..., exist_ok=True)] creates the folder and changes no file. *)
Lemma makedirs_isdir (p : path) :
  ∀ fs fs', FS.makedirs p fs = Ok fs' → FS.isdir fs' p = true.
Proof.
  unfold FS.isdir. induction p as [|d p IH]; intros fs fs' Hmk; simpl in Hmk.
  - destruct fs; by simplify_eq.
  - destruct fs as [?|es]; [done|]. destruct (FS.assoc d es) as [c|] eqn:Hd.
    + destruct (FS.makedirs p c) as [c'|] eqn:Hc; simpl in Hmk; [|done]. simplify_eq. simpl.
      rewrite assoc_set_entry, decide_True, Hd by done. by apply (IH c).
    + destruct (FS.makedirs p (Dir [])) as [c'|] eqn:Hc; simpl in Hmk; [|done].
      simplify_eq. simpl. rewrite assoc_app, Hd. simpl. rewrite decide_True by done.
      by apply (IH (Dir [])).
Qed.


(** ** A run of [sort_files] *)

Lemma sort_files_run (fs : node) (source_dir : path) (selected_ext : string)
    (st : FileManager.sort_state) :
  FS.wf fs = true →
  FileManager.sort_files fs source_dir selected_ext = Ok st →
  let dest := source_dir ++ [FileManager.destination_folder_name selected_ext] in
  ∃ fs1, FS.makedirs dest fs = Ok fs1 ∧
    sort_inv fs1 (FileManager.sort_fs st) ∧
    FS.isdir fs1 dest = true ∧
    (∀ p name,
       (p, name) ∈ FileManager.files_to_move selected_ext dest (FS.os_walk fs1 source_dir true) →
       FS.isfile (FileManager.sort_fs st) p = false) ∧
    (∀ q, outside_folder dest q → FS.isfile fs1 q = false →
          FS.isfile (FileManager.sort_fs st) q = false) ∧
    (∀ q d, FS.lookup_path fs1 q = Some (File d) →
       FS.lookup_path (FileManager.sort_fs st) q = Some (File d) ∨
       ((∃ name, (q, name) ∈ FileManager.files_to_move selected_ext dest
                               (FS.os_walk fs1 source_dir true)) ∧
        ∃ u, FS.lookup_path (FileManager.sort_fs st) (dest ++ [u]) = Some (File d))).
Proof.
  intros Hwf Hrun dest. unfold FileManager.sort_files in Hrun. fold dest in Hrun.
  destruct (FS.makedirs dest fs) as [fs1|] eqn:Hmk; simpl in Hrun; [|done].
  injection Hrun as <-. exists fs1. split; [done|].
  pose proof (wf_makedirs _ _ _ Hwf Hmk) as Hwf1.
  pose proof (makedirs_isdir _ _ _ Hmk) as Hdest1.
  set (infos := FileManager.files_to_move selected_ext dest (FS.os_walk fs1 source_dir true)).
  destruct (move_all_inv fs1 dest (length infos) Hdest1 infos
              (FileManager.SortState fs1 0 0 []) 0) as (Hinv & Hgone & Hkeep & Hcont).
  { done. }
  { intros p name (root & -> & Hin & Hroot & Hsel)%elem_of_files_to_move.
    split; [by exists root|].
    destruct (walk_files_sound _ _ _ _ Hwf1 Hin) as (rel & data & _ & Hfile).
    unfold FS.isdir. by rewrite Hfile. }
  done.
Qed.

Lemma candidate_collected (fs1 : node) (source_dir : path) (selected_ext : string) (q : path)
    (d : option (list Byte.byte)) :
  FS.lookup_path fs1 q = Some (File d) →
  is_sort_candidate source_dir selected_ext q ↔
  ∃ name, (q, name) ∈ FileManager.files_to_move selected_ext
                        (source_dir ++ [FileManager.destination_folder_name selected_ext])
                        (FS.os_walk fs1 source_dir true).
Proof.
  intros Hq. split.
  - intros (rel & name & -> & Hne & Hsel). exists name. apply elem_of_files_to_move.
    exists (source_dir ++ rel). split; [by rewrite <- app_assoc|].
    split; [|done]. by apply (walk_files_complete _ _ _ _ d).
  - intros (name & (root & -> & Hin & Hroot & Hsel)%elem_of_files_to_move).
    destruct (walk_files_under_top _ _ _ _ Hin) as [rel ->].
    exists rel, name. by rewrite <- app_assoc.
Qed.

(** X13. Sorting twice is sorting once: after a run of [sort_files] on a tree
    in which no directory lists a name twice, a second run with the same
    folder and extension finds nothing to move, so it moves nothing, skips
    nothing, reports no progress and leaves the tree as it is. *)
Theorem sort_files_idempotent (fs : node) (source_dir : path) (selected_ext : string)
    (st : FileManager.sort_state) :
  FS.wf fs = true →
  FileManager.sort_files fs source_dir selected_ext = Ok st →
  FileManager.sort_files (FileManager.sort_fs st) source_dir selected_ext
  = Ok (FileManager.SortState (FileManager.sort_fs st) 0 0 []).
Proof.
  intros Hwf Hrun.
  destruct (sort_files_run _ _ _ _ Hwf Hrun)
    as (fs1 & Hmk & [Hwf' Hdirs] & Hdest1 & Hgone & Hkeep & _).
  unfold FileManager.sort_files.
  set (dest := source_dir ++ [FileManager.destination_folder_name selected_ext]) in *.
  rewrite makedirs_existing by by rewrite Hdirs. simpl.
  assert (FileManager.files_to_move selected_ext dest
            (FS.os_walk (FileManager.sort_fs st) source_dir true) = []) as ->; [|done].
  apply elem_of_nil_inv. intros [p name] Hin.
  pose proof Hin as (root & -> & Hwalk & Hroot & Hsel)%elem_of_files_to_move.
  destruct (walk_files_sound _ _ _ _ Hwf' Hwalk) as (rel & data & -> & Hfile).
  destruct (FS.isfile fs1 ((source_dir ++ rel) ++ [name])) eqn:Hwas.
  - apply isfile_true in Hwas as [d Hd].
    assert (is_sort_candidate source_dir selected_ext ((source_dir ++ rel) ++ [name])) as Hc.
    { exists rel, name. by rewrite <- app_assoc. }
    apply (candidate_collected fs1 _ _ _ d Hd) in Hc as [name' Hc].
    apply Hgone in Hc. by rewrite (isfile_lookup _ _ _ Hfile) in Hc.
  - apply Hkeep in Hwas; [|by exists (source_dir ++ rel), name].
    by rewrite (isfile_lookup _ _ _ Hfile) in Hwas.
Qed.

Lemma sort_files_idempotent_witness :
  let fs := Dir [("a.png", File (Some [])); ("notes.txt", File (Some []));
                 ("png_files", Dir [("a.png", File (Some [Byte.x01]))])] in
  ∃ st, FileManager.sort_files fs [] "png" = Ok st ∧
        FileManager.sort_files (FileManager.sort_fs st) [] "png"
        = Ok (FileManager.SortState (FileManager.sort_fs st) 0 0 []).
Proof.
  eexists. split; [vm_compute; reflexivity|].
  apply (sort_files_idempotent
           (Dir [("a.png", File (Some [])); ("notes.txt", File (Some []));
                 ("png_files", Dir [("a.png", File (Some [Byte.x01]))])]) [] "png");
    vm_compute; reflexivity.
Defined.



(** A run where the name is taken in the destination folder: the file goes
    to [a(1).png] and the one that was there keeps its content. *)
Example sort_files_example :
  FileManager.sort_fs <$>
  (match FileManager.sort_files
           (Dir [("a.png", File (Some [])); ("notes.txt", File (Some []));
                 ("png_files", Dir [("a.png", File (Some [Byte.x01]))])]) [] "png" with
   | Ok st => Some st | Raise _ => None end)
  = Some (Dir [("notes.txt", File (Some []));
               ("png_files", Dir [("a.png", File (Some [Byte.x01]));
                                  ("a(1).png", File (Some []))])]).
Proof. by vm_compute. Qed.

(** ** What a real prune pass leaves *)

Lemma bottom_up_app (A B : list path) :
  bottom_up (A ++ B) ↔
  bottom_up A ∧ bottom_up B ∧ ∀ a b, a ∈ A → b ∈ B → ¬ strictly_below a b.
Proof.
  induction A as [|a A IH]; simpl.
  - split; [|tauto]. intros HB. split_and!; [done..|]. by intros ?? ?%elem_of_nil.
  - rewrite IH. split.
    + intros (Ha & HA & HB & Hcross). split_and!; try done.
      * intros q' Hq'. apply Ha, elem_of_app. by left.
      * intros a' b [->|Ha']%elem_of_cons Hb; [|by apply Hcross].
        apply Ha, elem_of_app. by right.
    + intros ([Ha HA] & HB & Hcross). split_and!; try done.
      * intros q' [Hq'|Hq']%elem_of_app; [by apply Ha|]. apply Hcross; [left|done].
      * intros a' b Ha' Hb. apply Hcross; [by right|done].
Qed.

(** The bottom-up walk of a tree in which no directory lists a name twice
    yields every folder after the folders below it. *)
Lemma walk_bottom_up (n : node) :
  ∀ top, FS.wf n = true → bottom_up (FS.walk false top n).*1.*1.
Proof.
  induction n as [data|es IH] using node_ind'; intros top Hwf; [done|].
  rewrite walk_Dir, !fmap_app. apply bottom_up_app. split_and!.
  - apply wf_Dir in Hwf as [Hnd Hall].
    induction es as [|[name c] es IHes]; [done|].
    apply Forall_cons in IH as [IHc IH]. apply Forall_cons in Hall as [Hc Hall].
    apply NoDup_cons in Hnd as [Hname Hnd].
    rewrite walk_below_cons, !fmap_app. apply bottom_up_app. split_and!.
    + by apply IHc.
    + by apply IHes.
    + intros a b Ha Hb (x & rest & Hab).
      apply list_elem_of_fmap in Ha as (ta' & -> & Ha).
      apply list_elem_of_fmap in Ha as (ta & -> & Ha).
      apply list_elem_of_fmap in Hb as (tb' & -> & Hb).
      apply list_elem_of_fmap in Hb as (tb & -> & Hb).
      apply walk_under_top in Ha as [ra Hra].
      apply elem_of_walk_below in Hb as (name' & c' & Hin & Hb).
      apply walk_under_top in Hb as [rb Hrb].
      rewrite Hra, Hrb, <- !app_assoc in Hab. apply app_inv_head in Hab.
      simpl in Hab. injection Hab as -> _.
      apply Hname. apply list_elem_of_fmap. by exists (name, c').
  - simpl. split; [|done]. by intros ? ?%elem_of_nil.
  - intros a b Ha ->%list_elem_of_singleton (x & rest & Hab).
    apply list_elem_of_fmap in Ha as (ta' & -> & Ha).
    apply list_elem_of_fmap in Ha as (ta & -> & Ha).
    apply elem_of_walk_below in Ha as (name & c & Hin & Ha).
    apply walk_under_top in Ha as [ra Hra]. simpl in Hab.
    rewrite Hra in Hab. apply (f_equal length) in Hab.
    rewrite !length_app in Hab. simpl in Hab. lia.
Qed.

Section PrunePass.

Variable target_dir : path.

Local Abbreviation visit := (FileManager.visit_folder target_dir false).

Lemma visit_keeps_missing (st : FileManager.prune_state) (dirpath q : path) :
  FS.lookup_path (FileManager.prune_fs st) q = None →
  FS.lookup_path (FileManager.prune_fs (visit st dirpath)) q = None.
Proof.
  destruct (visit_folder_cases target_dir false st dirpath)
    as [(-> & _)|(_ & Hne & fs' & Hrm & ->)]; [done|]. simpl.
  by apply (rmdir_no_new _ _ _ Hrm).
Qed.

(** A folder that is not empty stays as it is while no folder below it is
    visited. *)
Lemma visit_keeps_nonempty (st : FileManager.prune_state) (dirpath q : path)
    (e : string * node) (es : list (string * node)) :
  ¬ strictly_below q dirpath →
  FS.lookup_path (FileManager.prune_fs st) q = Some (Dir (e :: es)) →
  FS.lookup_path (FileManager.prune_fs (visit st dirpath)) q = Some (Dir (e :: es)).
Proof.
  intros Hbelow Hq.
  destruct (visit_folder_cases target_dir false st dirpath)
    as [(-> & _)|(_ & Hne & fs' & Hrm & ->)]; [done|]. simpl.
  rewrite (rmdir_lookup _ _ _ Hrm); [done|by eauto|].
  intros [[|x rest] ->].
  - rewrite app_nil_r in Hrm.
    destruct (rmdir_inv _ _ _ Hrm) as (_ & _ & _ & _ & Hempty & _). congruence.
  - apply Hbelow. by exists x, rest.
Qed.

Lemma visit_keeps_settled (st : FileManager.prune_state) (dirpath q : path) :
  ¬ strictly_below q dirpath →
  FS.lookup_path (FileManager.prune_fs st) q ≠ Some (Dir []) →
  FS.lookup_path (FileManager.prune_fs (visit st dirpath)) q ≠ Some (Dir []).
Proof.
  intros Hbelow Hq.
  destruct (FS.lookup_path (FileManager.prune_fs st) q) as [[d|[|e es]]|] eqn:Hst.
  - by rewrite (proj2 (visit_folder_files target_dir false st dirpath q d) Hst).
  - done.
  - by rewrite (visit_keeps_nonempty st dirpath q e es Hbelow Hst).
  - by rewrite (visit_keeps_missing st dirpath q Hst).
Qed.

(** The visit of a folder other than the root leaves it non-empty or removes
    it. *)
Lemma visit_settles (st : FileManager.prune_state) (q : path) :
  q ≠ target_dir → q ≠ [] →
  FS.lookup_path (FileManager.prune_fs (visit st q)) q ≠ Some (Dir []).
Proof.
  intros Htarget Hroot. unfold FileManager.visit_folder. rewrite decide_False by done.
  unfold FS.listdir.
  destruct (FS.lookup_path (FileManager.prune_fs st) q) as [[d|[|e es]]|] eqn:Hq; simpl.
  - by rewrite Hq.
  - destruct (FS.rmdir (FileManager.prune_fs st) q) as [fs'|err] eqn:Hrm; simpl.
    + by rewrite (rmdir_gone _ _ _ Hrm).
    + exfalso. unfold FS.rmdir in Hrm. rewrite Hq in Hrm.
      destruct (FS.split_last q) as [[parent name]|] eqn:Hsplit; [done|].
      unfold FS.split_last in Hsplit.
      destruct (reverse q) as [|x r] eqn:Hrev; [|done].
      apply (f_equal reverse) in Hrev. by rewrite reverse_involutive in Hrev.
  - rewrite Hq. done.
  - by rewrite Hq.
Qed.

Lemma prune_pass_settles (W : list (path * list string * list string)) :
  ∀ (st : FileManager.prune_state) (q : path),
    bottom_up W.*1.*1 → q ∈ W.*1.*1 → q ≠ target_dir → q ≠ [] →
    FS.lookup_path
      (FileManager.prune_fs (foldl (fun st '(dirpath, _, _) => visit st dirpath) st W)) q
    ≠ Some (Dir []).
Proof.
  induction W as [|[[p dirs] files] W IH]; intros st q Hup Hq Htarget Hroot.
  - by apply elem_of_nil in Hq.
  - simpl in Hup, Hq. destruct Hup as [Hp Hup]. simpl.
    apply elem_of_cons in Hq as [->|Hq]; [|by apply IH].
    apply (foldl_invariant_elem
             (fun s => FS.lookup_path (FileManager.prune_fs s) p ≠ Some (Dir []))).
    + by apply visit_settles.
    + intros s [[p' ?] ?] Hin Hs. apply visit_keeps_settled; [|done].
      apply Hp. apply list_elem_of_fmap. eexists (p', _). split; [done|].
      apply list_elem_of_fmap. by eexists (p', _, _).
Qed.

End PrunePass.

Lemma prune_settles (fs : node) (target_dir rel : path) :
  FS.wf fs = true → rel ≠ [] →
  FS.lookup_path (FileManager.prune_fs (FileManager.delete_empty_folders fs target_dir false))
    (target_dir ++ rel) ≠ Some (Dir []).
Proof.
  intros Hwf Hrel. unfold FileManager.delete_empty_folders.
  destruct (FS.lookup_path fs (target_dir ++ rel)) as [[d|es]|] eqn:Hq.
  - assert (FS.lookup_path
              (FileManager.prune_fs
                 (foldl (fun st '(dirpath, _, _) =>
                           FileManager.visit_folder target_dir false st dirpath)
                    (FileManager.PruneState fs 0 [LogStartCleanup])
                    (FS.os_walk fs target_dir false))) (target_dir ++ rel)
            = Some (File d)) as ->; [|done].
    apply (foldl_invariant
             (fun s => FS.lookup_path (FileManager.prune_fs s) (target_dir ++ rel)
                       = Some (File d))); [done|].
    intros s [[p ?] ?] Hs. by apply visit_folder_files.
  - unfold FS.os_walk. rewrite lookup_path_app in Hq.
    destruct (FS.lookup_path fs target_dir) as [n|] eqn:Hn; [simpl in Hq|done].
    apply prune_pass_settles.
    + apply walk_bottom_up. by apply (wf_lookup target_dir fs).
    + apply list_elem_of_fmap. eexists (_, _). split; [done|].
      apply list_elem_of_fmap. eexists. split; [|by apply (walk_complete false rel n)]. done.
    + intros Heq. apply (f_equal length) in Heq. rewrite length_app in Heq.
      destruct rel; [done|]. simpl in Heq. lia.
    + intros [_ ?]%app_eq_nil. done.
  - assert (FS.lookup_path
              (FileManager.prune_fs
                 (foldl (fun st '(dirpath, _, _) =>
                           FileManager.visit_folder target_dir false st dirpath)
                    (FileManager.PruneState fs 0 [LogStartCleanup])
                    (FS.os_walk fs target_dir false))) (target_dir ++ rel)
            = None) as ->; [|done].
    apply (foldl_invariant
             (fun s => FS.lookup_path (FileManager.prune_fs s) (target_dir ++ rel) = None));
      [done|].
    intros s [[p ?] ?] Hs. by apply visit_keeps_missing.
Qed.


(** X15. A real pass of [delete_empty_folders] over a tree in which no
    directory lists a name twice leaves no empty folder below [target_dir]. *)
Theorem prune_leaves_no_empty_folder (fs : node) (target_dir rel : path) :
  FS.wf fs = true → rel ≠ [] →
  FS.listdir (FileManager.prune_fs (FileManager.delete_empty_folders fs target_dir false))
    (target_dir ++ rel) ≠ Ok [].
Proof.
  intros Hwf Hrel. pose proof (prune_settles fs target_dir rel Hwf Hrel) as Hq.
  unfold FS.listdir.
  destruct (FS.lookup_path _ (target_dir ++ rel)) as [[d|[|e es]]|]; done.
Qed.

Lemma prune_leaves_no_empty_folder_witness :
  FS.listdir
    (FileManager.prune_fs
       (FileManager.delete_empty_folders
          (Dir [("keep", Dir [("x.txt", File (Some []))]); ("A", Dir [("B", Dir [])])])
          [] false))
    ([] ++ ["A"]) ≠ Ok [] ∧
  FS.listdir
    (FileManager.prune_fs
       (FileManager.delete_empty_folders
          (Dir [("keep", Dir [("x.txt", File (Some []))]); ("A", Dir [("B", Dir [])])])
          [] false))
    ([] ++ ["keep"]) ≠ Ok [].
Proof.
  split.
  - apply (prune_leaves_no_empty_folder
             (Dir [("keep", Dir [("x.txt", File (Some []))]); ("A", Dir [("B", Dir [])])])
             [] ["A"]); [reflexivity|discriminate].
  - apply (prune_leaves_no_empty_folder
             (Dir [("keep", Dir [("x.txt", File (Some []))]); ("A", Dir [("B", Dir [])])])
             [] ["keep"]); [reflexivity|discriminate].
Defined.



(** ** What a real duplicate scan leaves *)

Section RealScan.

Context `{!Hashlib}.
Variable idx : gmap string string.




End RealScan.





(** A folder scanned against itself. *)
Example scan_of_reference_example :
  FileManager.dup_fs
    (FileManager.find_duplicates
       (Dir [("pics", Dir [("a.png", File (Some [Byte.x61]));
                           ("sub", Dir [("b.png", File (Some [Byte.x62; Byte.x62]))])])])
       ["pics"] ["pics"] false)
  = Dir [("pics", Dir [("sub", Dir [])])].
Proof. by vm_compute. Qed.

(** ** The extension of a renamed file *)

Lemma to_list_app (s t : string) : Str.to_list (s +:+ t) = Str.to_list s ++ Str.to_list t.
Proof.
  induction s as [|a s IH]; [done|].
  rewrite string_app_cons. unfold Str.to_list in *. simpl. by rewrite IH.
Qed.

Lemma to_list_of_list (l : list ascii) : Str.to_list (Str.of_list l) = l.
Proof. apply String.list_ascii_of_string_of_list_ascii. Qed.

Lemma of_list_to_list (s : string) : Str.of_list (Str.to_list s) = s.
Proof. apply String.string_of_list_ascii_of_string. Qed.

Lemma pretty_N_go_no_dot (x : N) :
  ∀ s, Forall (fun c => c ≠ "."%char) (Str.to_list s) →
       Forall (fun c => c ≠ "."%char) (Str.to_list (pretty_N_go x s)).
Proof.
  induction (N.lt_wf_0 x) as [x _ IH]; intros s Hs.
  assert (x = 0 ∨ 0 < x)%N as [->|Hx] by lia.
  - by rewrite pretty_N_go_0.
  - rewrite pretty_N_go_step by done. apply IH; [by apply N.div_lt|].
    unfold Str.to_list. simpl. constructor; [|done].
    unfold pretty_N_char. by repeat case_match.
Qed.

Lemma pretty_nat_no_dot (k : nat) : Forall (fun c => c ≠ "."%char) (Str.to_list (pretty k)).
Proof.
  unfold pretty, pretty_nat, pretty, pretty_N. case_decide.
  - by repeat constructor.
  - apply pretty_N_go_no_dot. constructor.
Qed.

Lemma rfind_dot_no_dot (l : list ascii) :
  Forall (fun c => c ≠ "."%char) l → Str.rfind_dot l = None.
Proof.
  induction 1 as [|c l Hc _ IH]; simpl; [done|]. rewrite IH. by rewrite decide_False.
Qed.

Lemma rfind_dot_app (x y : list ascii) :
  Str.rfind_dot (x ++ y)
  = match Str.rfind_dot y with
    | Some j => Some (length x + j)
    | None => Str.rfind_dot x
    end.
Proof.
  induction x as [|c x IH]; simpl.
  - by destruct (Str.rfind_dot y).
  - rewrite IH. by destruct (Str.rfind_dot y).
Qed.

Lemma rfind_dot_Some (l : list ascii) :
  ∀ i, Str.rfind_dot l = Some i →
       i < length l ∧ Str.rfind_dot (drop i l) = Some 0.
Proof.
  induction l as [|c l IH]; intros i; simpl; [done|].
  destruct (Str.rfind_dot l) as [j|] eqn:Hl.
  - intros [= <-]. destruct (IH j eq_refl) as [Hj Hdrop]. simpl. split; [lia|done].
  - case_decide as Hc; [|done]. intros [= <-]. simpl. split; [lia|].
    by rewrite Hl, decide_True.
Qed.

(** The tail [(counter)] that the resolver inserts holds no dot. *)
Lemma counter_no_dot (k : nat) :
  Forall (fun c => c ≠ "."%char) (Str.to_list ("(" +:+ pretty k +:+ ")")).
Proof.
  rewrite !to_list_app. apply Forall_app. split; [by repeat constructor|].
  apply Forall_app. split; [apply pretty_nat_no_dot|by repeat constructor].
Qed.

Lemma to_list_numbered (base_name extension : string) (k : nat) :
  Str.to_list (Str.numbered base_name k extension)
  = Str.to_list base_name ++ Str.to_list ("(" +:+ pretty k +:+ ")") ++ Str.to_list extension.
Proof. unfold Str.numbered. rewrite !to_list_app. by rewrite <- !app_assoc. Qed.

(** [os.path.splitext] finds the extension of the original name in a
    numbered name. *)
Lemma splitext_numbered (original_filename : string) (k : nat) :
  (Str.splitext (Str.numbered (Str.splitext original_filename).1 k
                   (Str.splitext original_filename).2)).2
  = (Str.splitext original_filename).2.
Proof.
  pose proof (counter_no_dot k) as Hmid.
  destruct (Str.splitext original_filename) as [b e] eqn:Hsplit. simpl.
  unfold Str.splitext in Hsplit.
  destruct (Str.rfind_dot (Str.to_list original_filename)) as [i|] eqn:Hfind.
  - destruct (rfind_dot_Some _ _ Hfind) as [Hi Hdrop].
    destruct (existsb _ (take i (Str.to_list original_filename))) eqn:Hstem;
      injection Hsplit as <- <-.
    + unfold Str.splitext. rewrite to_list_numbered, !to_list_of_list.
      rewrite app_assoc, rfind_dot_app, Hdrop, Nat.add_0_r.
      rewrite take_app_length, drop_app_length.
      by rewrite existsb_app, Hstem.
    + unfold Str.splitext. rewrite to_list_numbered.
      change (Str.to_list "") with (@nil ascii). rewrite app_nil_r.
      rewrite rfind_dot_app, (rfind_dot_no_dot _ Hmid), Hfind.
      rewrite take_app_le by lia. by rewrite Hstem.
  - injection Hsplit as <- <-.
    unfold Str.splitext. rewrite to_list_numbered.
    change (Str.to_list "") with (@nil ascii). rewrite app_nil_r.
    by rewrite rfind_dot_app, (rfind_dot_no_dot _ Hmid), Hfind.
Qed.

Lemma unique_filename_probe (fs : node) (destination_folder : path)
    (original_filename : string) :
  ∃ k, FileManager._get_unique_filename fs destination_folder original_filename
       = probe original_filename k.
Proof.
  destruct (least_free_probe fs destination_folder original_filename)
    as (k & Hk & Hfree & Hbelow).
  exists k. unfold FileManager._get_unique_filename.
  destruct (Str.splitext original_filename) as [b e] eqn:Hsplit.
  pose proof (unique_loop_least fs destination_folder original_filename k Hfree Hbelow
                (S (S (FileManager.entry_count fs destination_folder))) 0) as Hloop.
  rewrite Hsplit in Hloop. simpl in Hloop. apply Hloop; lia.
Qed.

(** X19. The name that [_get_unique_filename] returns has the extension of
    the original name, as [os.path.splitext] sees it: a file renamed on its
    way into the destination folder is selected by [sort_files] for the same
    extensions as before. *)
Theorem unique_filename_keeps_extension (fs : node) (destination_folder : path)
    (original_filename : string) :
  let new_filename :=
    FileManager._get_unique_filename fs destination_folder original_filename in
  (Str.splitext new_filename).2 = (Str.splitext original_filename).2 ∧
  FileManager.file_extension new_filename = FileManager.file_extension original_filename ∧
  ∀ selected_ext,
    FileManager.selected selected_ext new_filename
    = FileManager.selected selected_ext original_filename.
Proof.
  intros new_filename.
  assert ((Str.splitext new_filename).2 = (Str.splitext original_filename).2) as Hext.
  { subst new_filename.
    destruct (unique_filename_probe fs destination_folder original_filename) as [[|k] ->];
      [done|apply splitext_numbered]. }
  assert (FileManager.file_extension new_filename
          = FileManager.file_extension original_filename) as Hfe.
  { unfold FileManager.file_extension. by rewrite Hext. }
  split; [done|]. split; [done|]. intros selected_ext.
  unfold FileManager.selected. by rewrite Hfe.
Qed.

(** Names with a dot in the stem, with a leading dot and without extension. *)
Example unique_filename_extension_example :
  let fs := Dir [("a.tar.gz", File (Some [])); (".env", File (Some []));
                 ("README", File (Some []))] in
  FileManager._get_unique_filename fs [] "a.tar.gz" = "a.tar(1).gz" ∧
  FileManager._get_unique_filename fs [] ".env" = ".env(1)" ∧
  FileManager._get_unique_filename fs [] "README" = "README(1)".
Proof. by vm_compute. Qed.
